(** * my_cash: the [MyCash] ledger of [app.py]

    A shallow embedding of the two classes of [app.py], [Record] and
    [MyCash], and of the part of Python they rely on, followed by the
    properties of the ledger: balance, search, edit, add, and the
    save/load cycle; then of the command line around it
    ([get_username], the menu loop [run] and the main block).

    Modelling decisions.
    - A [Record] carries the types of its annotations
      ([date: str, category: str, price: int, description: str]);
      Python's [int] is unbounded, hence [Z].
    - A Python [str] is represented by the bytes of its UTF-8 encoding.
      The only string operations of the ledger are equality, emptiness
      and [split("-")]; the byte of ["-"] never occurs inside a
      multi-byte UTF-8 sequence, so all three agree with Python's
      behaviour on code points.
    - Optional arguments ([date: str = None]) are [option] values.
    - The methods mutate [self] and the disk; here each method takes
      the store and the disk and returns the new ones together with the
      way the call ended (it returned, or it raised).  A raise keeps the
      mutations made before it, as in Python.
    - The [json] module is a library: a file is represented by what
      [json.load] makes of its text (a decoded document, or a
      [JSONDecodeError]), and [json.dump] writes the document it is
      given.  Existing files can be read and every path can be written.
    - Records are values: the ledger creates a fresh object for every
      slot of [self.records], so no two slots alias. *)

From Stdlib Require Import ZArith String Ascii List.
From stdpp Require Import gmap strings list fin_maps.

Local Open Scope string_scope.
Local Open Scope list_scope.
Local Open Scope Z_scope.

(** ** Python primitives *)

Module Py.

(** Exceptions the ledger can raise. *)
Inductive exn : Type :=
| FileNotFoundError
| JSONDecodeError
| TypeError
| IndexError.

(** How a call ends.  [Untyped] stands for an execution that goes on
    with a value breaking the annotations of [Record.__init__] (Python
    does not check them); such stores are outside this development. *)
Inductive result (A : Type) : Type :=
| Return (v : A)
| Raise (e : exn)
| Untyped.

Arguments Return {A} v.
Arguments Raise {A} e.
Arguments Untyped {A}.

(** Truth value testing ([if x:]). *)
Class Truthy (A : Type) := truth : A → bool.

#[global] Instance str_truthy : Truthy string :=
  λ s, negb (String.eqb s "").

#[global] Instance int_truthy : Truthy Z :=
  λ z, negb (Z.eqb z 0).

#[global] Instance optional_truthy {A} `{Truthy A} : Truthy (option A) :=
  λ o, match o with
       | Some v => truth v
       | None => false
       end.

(** [s.split(sep)] for a one-character separator. *)
Fixpoint split (sep : ascii) (s : string) : list string :=
  match s with
  | EmptyString => [EmptyString]
  | String c s' =>
      if Ascii.eqb c sep then EmptyString :: split sep s'
      else match split sep s' with
           | part :: parts => String c part :: parts
           | [] => [String c EmptyString]
           end
  end.

(** [sum(xs)]: starts from 0 and adds from the left. *)
Definition sum (xs : list Z) : Z := fold_left Z.add xs 0.

(** The position [l[i]] denotes: [0 <= i < len(l)] counts from the
    front, [-len(l) <= i < 0] from the back, anything else raises
    [IndexError]. *)
Definition index {A} (l : list A) (i : Z) : option nat :=
  let n := Z.of_nat (length l) in
  if decide (0 ≤ i < n) then Some (Z.to_nat i)
  else if decide (- n ≤ i < 0) then Some (Z.to_nat (n + i))
  else None.

(** [l[i]], with the position it was found at. *)
Definition getitem {A} (l : list A) (i : Z) : option (nat * A) :=
  match index l i with
  | Some k =>
      match l !! k with
      | Some x => Some (k, x)
      | None => None
      end
  | None => None
  end.

End Py.

Export Py.

(** ** JSON documents and the disk *)

(** What [json.load] returns.  [JFloat] keeps the literal: the ledger
    never computes with it. *)
#[local] Set Warnings "-register-all".
Inductive json : Type :=
| JNull
| JBool (b : bool)
| JInt (z : Z)
| JFloat (literal : string)
| JStr (s : string)
| JArr (items : list json)
| JObj (members : list (string * json)).
#[local] Set Warnings "register-all".

(** A file, seen through [json.load]. *)
Inductive file : Type :=
| Unparsable
| Json (data : json).

(** [d.get(k)] for the [dict] that [json.load] builds from an object:
    of two members with the same key the later one wins. *)
Fixpoint dict_get (k : string) (members : list (string * json)) : option json :=
  match members with
  | [] => None
  | (k', v) :: rest =>
      match dict_get k rest with
      | Some v' => Some v'
      | None => if String.eqb k k' then Some v else None
      end
  end.

(** ** class Record *)

Module Record.

Record t : Type := new {
  date : string;
  category : string;
  price : Z;
  description : string;
}.

(** Attribute assignment [record.f = v]. *)
Definition set_date (v : string) (r : t) : t :=
  new v (category r) (price r) (description r).
Definition set_category (v : string) (r : t) : t :=
  new (date r) v (price r) (description r).
Definition set_price (v : Z) (r : t) : t :=
  new (date r) (category r) v (description r).
Definition set_description (v : string) (r : t) : t :=
  new (date r) (category r) (price r) v.

(** The parameters of [__init__] after [self]. *)
Definition params : list string :=
  ["date"; "category"; "price"; "description"].

(** [record.__dict__]: the attributes in the order [__init__] sets
    them. *)
Definition dict (r : t) : json :=
  JObj [("date", JStr (date r)); ("category", JStr (category r));
        ("price", JInt (price r)); ("description", JStr (description r))].

(** [Record] called with the keyword arguments of [entry] (the
    double-star call of [load_data]).  A [TypeError] is raised when [entry] is not a
    mapping, when it has a key that is not a parameter, or when a
    parameter has no key.  The values are stored unchecked, so a value
    of another type than the annotation gives [Untyped]. *)
Definition of_kwargs (entry : json) : result t :=
  match entry with
  | JObj members =>
      if forallb (λ kv, existsb (String.eqb kv.1) params) members then
        match dict_get "date" members, dict_get "category" members,
              dict_get "price" members, dict_get "description" members with
        | Some d, Some c, Some p, Some s =>
            match d, c, p, s with
            | JStr d, JStr c, JInt p, JStr s => Return (new d c p s)
            | _, _, _, _ => Untyped
            end
        | _, _, _, _ => Raise TypeError
        end
      else Raise TypeError
  | _ => Raise TypeError
  end.

End Record.

(** ** class MyCash *)

Module MyCash.

Record t : Type := mk {
  filepath : string;
  records : list Record.t;
}.

Definition set_records (rs : list Record.t) (self : t) : t :=
  mk (filepath self) rs.

(** The two category literals [display_balance] compares with
    (income and expense). *)
Definition Income : string := "Доход".
Definition Expense : string := "Расход".

(** The loop [for record in data] of [load_data], which appends a
    [Record] built from each item, over the items of a JSON array. *)
Fixpoint load_loop (items : list json) (self : t) : t * result unit :=
  match items with
  | [] => (self, Return tt)
  | record :: rest =>
      match Record.of_kwargs record with
      | Return r => load_loop rest (set_records (records self ++ [r]) self)
      | Raise e => (self, Raise e)
      | Untyped => (self, Untyped)
      end
  end.

(** [load_data].  A missing file resets the records; any other
    exception propagates.  Iterating a [dict] yields its keys and
    iterating a [str] its characters, none of which is a mapping, so
    building the [Record] raises on the first of them; numbers, booleans
    and [None] are not iterable. *)
Definition load_data (self : t) (disk : gmap string file) : t * result unit :=
  match disk !! filepath self with
  | None => (set_records [] self, Return tt)
  | Some Unparsable => (self, Raise JSONDecodeError)
  | Some (Json data) =>
      match data with
      | JArr items => load_loop items self
      | JObj [] => (self, Return tt)
      | JStr "" => (self, Return tt)
      | _ => (self, Raise TypeError)
      end
  end.

(** [__init__]: the path, an empty list, then [load_data]. *)
Definition init (username : string) (disk : gmap string file) : t * result unit :=
  load_data (mk (username +:+ ".json") []) disk.

(** [save_data]: the new disk.  The file is written and read with the
    same encoding ([utf-8]) and [ensure_ascii=False] keeps the strings
    as they are, so the document read back is the document written.
    A write that fails (a missing directory, a refused permission, a
    number [json.dump] cannot print) is not modelled: what is proved
    below of a call that saves is proved of a call whose write
    succeeded; the records in memory are changed before the write in
    any case. *)
Definition save_data (self : t) (disk : gmap string file) : gmap string file :=
  let data := JArr (map Record.dict (records self)) in
  <[filepath self := Json data]> disk.

Definition add_record (self : t) (disk : gmap string file)
    (date category : string) (price : Z) (description : string)
  : t * gmap string file * result unit :=
  let self := set_records (records self ++ [Record.new date category price description]) self in
  (self, save_data self disk, Return tt).

(** [if arg: record.f = arg]. *)
Definition assign {A} `{Truthy A} (arg : option A)
    (set : A → Record.t → Record.t) (record : Record.t) : Record.t :=
  match arg with
  | Some v => if truth v then set v record else record
  | None => record
  end.

Definition edit_record (self : t) (disk : gmap string file) (record_id : Z)
    (date category : option string) (price : option Z) (description : option string)
  : t * gmap string file * result unit :=
  match Py.getitem (records self) record_id with
  | None => (self, disk, Raise IndexError)
  | Some (k, record) =>
      let record := assign date Record.set_date record in
      let record := assign category Record.set_category record in
      let record := assign price Record.set_price record in
      let record := assign description Record.set_description record in
      let self := set_records (<[k := record]> (records self)) self in
      (self, save_data self disk, Return tt)
  end.

(** The three tests of the loop body of [search_records]; each says
    whether the record is skipped ([continue]). *)
Definition category_differs (category : option string) (record : Record.t) : bool :=
  match category with
  | Some c => truth c && negb (String.eqb c (Record.category record))
  | None => false
  end.

Definition date_differs (date : option string) (record : Record.t) : bool :=
  match date with
  | Some d =>
      truth d &&
      (let record_date_parts := Py.split "-" (Record.date record) in
       let input_date_parts := Py.split "-" d in
       negb (bool_decide (take (length input_date_parts) record_date_parts
                          = input_date_parts)))
  | None => false
  end.

Definition price_differs (price : option Z) (record : Record.t) : bool :=
  match price with
  | Some p => truth p && negb (Z.eqb p (Record.price record))
  | None => false
  end.

Fixpoint search_loop (category date : option string) (price : option Z)
    (rs : list Record.t) (results : list Record.t) : list Record.t :=
  match rs with
  | [] => results
  | record :: rest =>
      if category_differs category record then search_loop category date price rest results
      else if date_differs date record then search_loop category date price rest results
      else if price_differs price record then search_loop category date price rest results
      else search_loop category date price rest (results ++ [record])
  end.

Definition search_records (self : t)
    (category date : option string) (price : option Z) : list Record.t :=
  search_loop category date price (records self) [].

Definition display_balance (self : t) : Z * Z * Z :=
  let income :=
    Py.sum (map Record.price
              (filter (λ record, Record.category record = Income) (records self))) in
  let expense :=
    Py.sum (map Record.price
              (filter (λ record, Record.category record = Expense) (records self))) in
  let balance := income - expense in
  (balance, income, expense).

End MyCash.

(** ** Vocabulary of the specification *)

Module Spec.

(** Sum of the amounts of the records of one category. *)
Fixpoint total (c : string) (rs : list Record.t) : Z :=
  match rs with
  | [] => 0
  | r :: rest =>
      (if decide (Record.category r = c) then Record.price r else 0) + total c rest
  end.

(** The leading components of the record's date are the components of
    the query, in order. *)
Definition date_matches (query : string) (r : Record.t) : Prop :=
  Py.split "-" query `prefix_of` Py.split "-" (Record.date r).

#[global] Instance date_matches_dec query r : Decision (date_matches query r).
Proof. unfold date_matches. apply _. Defined.

(** A criterion holds when it is absent. *)
Definition criterion {A} (P : A → Prop) (arg : option A) : Prop :=
  match arg with
  | Some v => P v
  | None => True
  end.

#[global] Instance criterion_dec {A} (P : A → Prop) `{∀ v, Decision (P v)}
  (arg : option A) : Decision (criterion P arg).
Proof. destruct arg; simpl; apply _. Defined.

(** The record meets every criterion that is given. *)
Definition matches (category date : option string) (price : option Z)
    (r : Record.t) : Prop :=
  criterion (λ c, Record.category r = c) category ∧
  criterion (λ d, date_matches d r) date ∧
  criterion (λ p, Record.price r = p) price.

#[global] Instance matches_dec category date price r :
  Decision (matches category date price r).
Proof. unfold matches, date_matches. apply _. Defined.

(** An argument counts only when it is given and true-valued. *)
Definition applied {A} `{Truthy A} (arg : option A) : option A :=
  if truth arg then arg else None.

(** What an edit does to one field. *)
Definition edited {A} `{Truthy A} (arg : option A) (old new : A) : Prop :=
  match applied arg with
  | Some v => new = v
  | None => new = old
  end.

(** The record after the four conditional assignments of
    [edit_record]. *)
Definition assigned (date category : option string) (price : option Z)
    (description : option string) (old : Record.t) : Record.t :=
  MyCash.assign description Record.set_description
    (MyCash.assign price Record.set_price
       (MyCash.assign category Record.set_category
          (MyCash.assign date Record.set_date old))).

(** The two ways [load_data] reports unreadable storage. *)
Definition ReadError (e : exn) : Prop :=
  e = JSONDecodeError ∨ e = TypeError.

(** An entry of a ledger file: an object whose keys are exactly the four
    fields of a record. *)
Definition entry_shaped (item : json) : Prop :=
  ∃ members, item = JObj members ∧ ∀ k, k ∈ members.*1 ↔ k ∈ Record.params.

(** A ledger file: an array of entries. *)
Definition well_formed (f : file) : Prop :=
  ∃ items, f = Json (JArr items) ∧ Forall entry_shaped items.

End Spec.

(** ** A sample ledger *)

Module Sample.

Definition salary : Record.t :=
  Record.new "2024-05-02" MyCash.Income 30000 "Salary".

Definition groceries : Record.t :=
  Record.new "2024-05-03" MyCash.Expense 1500 "Groceries".

Definition ledger : MyCash.t := MyCash.mk "user.json" [salary; groceries].

End Sample.

(** ** Calls in sequence *)

Module Calls.

(** [add_record] called once for each entry, in order, with the fields
    of the entry as arguments; a call that does not return stops the
    sequence. *)
Fixpoint add_all (entries : list Record.t) (self : MyCash.t)
    (disk : gmap string file) : MyCash.t * gmap string file * result unit :=
  match entries with
  | [] => (self, disk, Return tt)
  | r :: rest =>
      match MyCash.add_record self disk (Record.date r) (Record.category r)
              (Record.price r) (Record.description r) with
      | (self', disk', Return _) => add_all rest self' disk'
      | stopped => stopped
      end
  end.

(** What one record adds to the sum of category [c]. *)
Definition share (c : string) (r : Record.t) : Z :=
  if decide (Record.category r = c) then Record.price r else 0.

End Calls.

(** ** The command line: [get_username], [MyCash.run] and the main block

    The console is the list of lines still to be read: [input()] takes
    the next line and raises [EOFError] when there is none.  What is
    printed is not modelled; the store, the disk and the lines read
    are.  Three library functions are parameters: [int] on a string
    ([None] when it raises [ValueError]), [datetime.strptime] on a
    string and a format ([false] when it raises [ValueError]), and the
    clock, given as the text [datetime.now().strftime("%Y-%m-%d")]
    yields at its k-th reading.  As for the ledger, every write is
    taken to succeed; a session that a failing write or a failing
    [print] ends is not covered, and nothing below says that such an
    end cannot happen. *)

Module Cli.

(** How [input()] ends. *)
Inductive console (A : Type) : Type :=
| Got (v : A) (stdin : list string)
| EOFError.

Arguments Got {A} v stdin.
Arguments EOFError {A}.

(** [os.path.exists] of a file of the disk. *)
Definition exists_ (path : string) (disk : gmap string file) : bool :=
  bool_decide (is_Some (disk !! path)).

(** [get_username]: asks for a name until its file exists or the
    creation of a new user is confirmed with ["1"]. *)
Fixpoint get_username (disk : gmap string file) (stdin : list string)
  : console string :=
  match stdin with
  | [] => EOFError
  | username :: stdin =>
      if exists_ (username +:+ ".json") disk then Got username stdin
      else
        match stdin with
        | [] => EOFError
        | choice :: stdin =>
            if String.eqb choice "1" then Got username stdin
            else get_username disk stdin
        end
  end.

(** [len(s)]: the number of code points, that is, of the bytes of the
    UTF-8 encoding that are not continuation bytes. *)
Definition continuation (c : ascii) : bool :=
  let n := nat_of_ascii c in (128 <=? n)%nat && (n <? 192)%nat.

Fixpoint len (s : string) : nat :=
  match s with
  | EmptyString => 0%nat
  | String c s' => if continuation c then len s' else S (len s')
  end.

(** [s in l] for a list of strings. *)
Definition one_of (s : string) (l : list string) : bool :=
  existsb (String.eqb s) l.

(** The state the menu loop works on. *)
Record world : Type := World {
  app : MyCash.t;
  disk : gmap string file;
  stdin : list string;
  clock : nat;
}.

(** How [run], or the main block, ends here: with the choice ["5"],
    with an [EOFError] of [input()], or with an exception a method of
    the ledger raised.  [OffModel] is no end of the program: the store
    holds a value that breaks the annotations, the program goes on and
    this development does not follow it.  [Unfinished] is the end of
    the fuel of [run_loop]. *)
Inductive ending : Type :=
| Exit
| EndOfInput
| Uncaught (e : exn)
| OffModel
| Unfinished.

(** One iteration of [while True] either goes on ([continue] or the end
    of the body) or leaves the loop. *)
Inductive flow : Type :=
| Next (w : world)
| Stop (e : ending) (w : world).

(** [input(...)], then the rest of the iteration. *)
Definition input (w : world) (k : string → world → flow) : flow :=
  match stdin w with
  | [] => Stop EndOfInput w
  | line :: rest => k line (World (app w) (disk w) rest (clock w))
  end.

(** A call of a method of the ledger, which ends the iteration. *)
Definition call (r : MyCash.t * gmap string file * result unit) (w : world) : flow :=
  let '(self, disk', res) := r in
  let w' := World self disk' (stdin w) (clock w) in
  match res with
  | Return _ => Next w'
  | Raise e => Stop (Uncaught e) w'
  | Untyped => Stop OffModel w'
  end.

Section menu.

Context (int : string → option Z).
Context (strptime : string → string → bool).
Context (today : nat → string).

(** Choice 2: a new record, dated by the clock. *)
Definition add_menu (w : world) : flow :=
  let date := today (clock w) in
  let w := World (app w) (disk w) (stdin w) (S (clock w)) in
  input w (λ category_choice w,
    if negb (one_of category_choice ["1"; "2"]) then Next w
    else
      let category :=
        if String.eqb category_choice "1" then MyCash.Income else MyCash.Expense in
      input w (λ price_line w,
        match int price_line with
        | None => Next w
        | Some price =>
            if price <? 0 then Next w
            else
              input w (λ description w,
                call (MyCash.add_record (app w) (disk w)
                        date category price description) w)
        end)).

(** Choice 3: an edit by index. *)
Definition edit_menu (w : world) : flow :=
  input w (λ id_line w,
    match int id_line with
    | None => Next w
    | Some record_id =>
        if (record_id <? 0)
           || (Z.of_nat (length (MyCash.records (app w))) <=? record_id)
        then Next w
        else
          input w (λ category_choice w,
            if negb (one_of category_choice ["1"; "2"; ""]) then Next w
            else
              let category :=
                if String.eqb category_choice "1" then Some MyCash.Income
                else if String.eqb category_choice "2" then Some MyCash.Expense
                else None in
              input w (λ date w,
                if truth date && negb (strptime date "%Y-%m-%d") then Next w
                else
                  input w (λ price_line w,
                    let finish (price : option Z) (w : world) : flow :=
                      input w (λ description w,
                        call (MyCash.edit_record (app w) (disk w) record_id
                                (if truth date then Some date else None)
                                category
                                (if truth price then price else None)
                                (Some description)) w) in
                    if truth price_line then
                      match int price_line with
                      | None => Next w
                      | Some price =>
                          if price <? 0 then Next w else finish (Some price) w
                      end
                    else finish None w)))
    end).

(** The date check of choice 4, by the length of the text. *)
Definition search_date_ok (date : string) : bool :=
  if (len date =? 4)%nat then strptime date "%Y"
  else if (len date =? 7)%nat then strptime date "%Y-%m"
  else if (len date =? 10)%nat then strptime date "%Y-%m-%d"
  else false.

(** Choice 4: a search; it reads three lines, or fewer when a check
    fails, and prints. *)
Definition search_menu (w : world) : flow :=
  input w (λ category_choice w,
    input w (λ date w,
      if truth date && negb (search_date_ok date) then Next w
      else
        input w (λ price_line w,
          if truth price_line then
            match int price_line with
            | None => Next w
            | Some price => Next w
            end
          else Next w))).

(** The body of [while True]. *)
Definition iteration (w : world) : flow :=
  input w (λ choice w,
    if negb (one_of choice ["1"; "2"; "3"; "4"; "5"]) then Next w
    else if String.eqb choice "1" then Next w
    else if String.eqb choice "2" then add_menu w
    else if String.eqb choice "3" then edit_menu w
    else if String.eqb choice "4" then search_menu w
    else if String.eqb choice "5" then Stop Exit w
    else Next w).

Fixpoint run_loop (fuel : nat) (w : world) : ending * world :=
  match fuel with
  | O => (Unfinished, w)
  | S fuel =>
      match iteration w with
      | Next w' => run_loop fuel w'
      | Stop e w' => (e, w')
      end
  end.

(** [run]: every iteration reads a line, so one more iteration than
    there are lines is enough. *)
Definition run (w : world) : ending * world :=
  run_loop (S (length (stdin w))) w.

(** The main block: the user name, the store, the menu.  Without a
    store there is no world to return.  An exception of the
    constructor ends the program before the menu; a store with a value
    breaking the annotations is where this development stops following
    the program, which goes on to the menu. *)
Definition main (disk : gmap string file) (stdin : list string)
  : ending * option world :=
  match get_username disk stdin with
  | EOFError => (EndOfInput, None)
  | Got username stdin =>
      match MyCash.init username disk with
      | (self, Return _) =>
          let '(e, w) := run (World self disk stdin 0) in (e, Some w)
      | (self, Raise e) => (Uncaught e, Some (World self disk stdin 0))
      | (self, Untyped) => (OffModel, Some (World self disk stdin 0))
      end
  end.

End menu.

(** Stand-ins for the two library functions, to run the menu on sample
    input: decimal digits with an optional minus sign for [int], and
    the length of the text for [strptime]. *)
Fixpoint digits (s : string) (acc : Z) : option Z :=
  match s with
  | EmptyString => Some acc
  | String c s' =>
      let n := nat_of_ascii c in
      if (48 <=? n)%nat && (n <=? 57)%nat
      then digits s' (10 * acc + Z.of_nat (n - 48))
      else None
  end.

Definition sample_int (s : string) : option Z :=
  match s with
  | EmptyString => None
  | String "-" (String c s') => Z.opp <$> digits (String c s') 0
  | String c s' => digits (String c s') 0
  end.

Definition sample_strptime (date format : string) : bool :=
  (String.length date =? String.length format + 2)%nat.

Definition sample_today (k : nat) : string := "2024-05-04".

End Cli.

(** ** Vocabulary for the command line *)

Module CliSpec.

(** A name that was asked and not taken: no file, and no ["1"]. *)
Definition declined (disk : gmap string file) (p : string * string) : Prop :=
  disk !! (p.1 +:+ ".json") = None ∧ p.2 ≠ "1".

(** The lines of a sequence of names with the answers to them. *)
Fixpoint lines (pairs : list (string * string)) : list string :=
  match pairs with
  | [] => []
  | (name, choice) :: rest => name :: choice :: lines rest
  end.

(** What one iteration of the menu can do to the store and the disk:
    nothing, an add of a record of one of the two categories with an
    amount that is not negative, or an edit at an index of the ledger
    with a checked date, one of the two categories and a positive
    amount, each of them optional. *)
Inductive menu_step (strptime : string → string → bool)
    (self : MyCash.t) (disk : gmap string file)
  : MyCash.t → gmap string file → Prop :=
| step_none : menu_step strptime self disk self disk
| step_add date category price description :
    category = MyCash.Income ∨ category = MyCash.Expense →
    0 ≤ price →
    menu_step strptime self disk
      (MyCash.add_record self disk date category price description).1.1
      (MyCash.add_record self disk date category price description).1.2
| step_edit i date category price description :
    0 ≤ i < Z.of_nat (length (MyCash.records self)) →
    (∀ d, date = Some d → d ≠ "" ∧ strptime d "%Y-%m-%d" = true) →
    category = None ∨ category = Some MyCash.Income
      ∨ category = Some MyCash.Expense →
    (∀ p, price = Some p → 0 < p) →
    menu_step strptime self disk
      (MyCash.edit_record self disk i date category price description).1.1
      (MyCash.edit_record self disk i date category price description).1.2.

(** Any number of iterations. *)
Inductive menu_steps (strptime : string → string → bool)
  : MyCash.t → gmap string file → MyCash.t → gmap string file → Prop :=
| steps_done self disk : menu_steps strptime self disk self disk
| steps_more self disk self1 disk1 self2 disk2 :
    menu_step strptime self disk self1 disk1 →
    menu_steps strptime self1 disk1 self2 disk2 →
    menu_steps strptime self disk self2 disk2.

(** An iteration, or a part of one, started with the store [self], the
    disk [disk] and at most [n] lines: it goes on after one step, or it
    stops, by the choice 5 or at the end of the input, with nothing
    changed. *)
Definition within (strptime : string → string → bool)
    (self : MyCash.t) (disk : gmap string file) (n : nat) (f : Cli.flow) : Prop :=
  match f with
  | Cli.Next w' =>
      menu_step strptime self disk (Cli.app w') (Cli.disk w') ∧
      (length (Cli.stdin w') ≤ n)%nat
  | Cli.Stop e w' =>
      (e = Cli.Exit ∨ e = Cli.EndOfInput) ∧
      Cli.app w' = self ∧ Cli.disk w' = disk ∧
      (length (Cli.stdin w') ≤ n)%nat
  end.

(** The ledger the menu is meant to keep: every amount is at least 0
    and every category is one of the two literals. *)
Definition tidy (rs : list Record.t) : Prop :=
  Forall (λ r, 0 ≤ Record.price r ∧
               (Record.category r = MyCash.Income ∨
                Record.category r = MyCash.Expense)) rs.

End CliSpec.

Import MyCash Spec.

(** ** Balance *)

Section balance.

Lemma sum_from (xs : list Z) (a : Z) :
  fold_left Z.add xs a = a + Py.sum xs.
Proof.
  unfold Py.sum. revert a.
  induction xs as [|x xs IH]; intros a; simpl; [lia|].
  rewrite (IH (a + x)), (IH (0 + x)). lia.
Qed.

Lemma sum_cons (x : Z) (xs : list Z) : Py.sum (x :: xs) = x + Py.sum xs.
Proof. unfold Py.sum at 1. simpl. apply sum_from. Qed.

Lemma sum_of_category (c : string) (rs : list Record.t) :
  Py.sum (map Record.price (filter (λ r, Record.category r = c) rs)) = total c rs.
Proof.
  induction rs as [|r rs IH]; [reflexivity|].
  rewrite filter_cons. simpl. case_decide.
  - simpl. rewrite sum_cons, IH. reflexivity.
  - rewrite IH. lia.
Qed.

(** C1. [display_balance] returns (balance, income, expense): income is
    the sum of the amounts of the records of category Income, expense
    the sum of the amounts of the records of category Expense, and
    balance is income minus expense.  With no record it returns
    (0, 0, 0).  After adding an income of 30000 and an expense of 1500 to
    an empty store it returns (28500, 30000, 1500). *)
Theorem display_balance_totals :
  (∀ self : MyCash.t,
     display_balance self =
       (total Income (records self) - total Expense (records self),
        total Income (records self),
        total Expense (records self))) ∧
  (∀ path, display_balance (MyCash.mk path []) = (0, 0, 0)) ∧
  (∀ path disk,
     let '(s1, d1, _) :=
       add_record (MyCash.mk path []) disk "2024-05-02" Income 30000 "Salary" in
     let '(s2, _, _) :=
       add_record s1 d1 "2024-05-03" Expense 1500 "Groceries" in
     display_balance s2 = (28500, 30000, 1500)).
Proof.
  split; [|split].
  - intros self. unfold display_balance.
    rewrite !sum_of_category. reflexivity.
  - intros path. reflexivity.
  - intros path disk. reflexivity.
Qed.

End balance.

(** ** Adding a record *)

Section add.

(** C5. [add_record] appends the new record at the end: it gets the
    index equal to the previous length, the length grows by exactly one,
    every existing record stays where and what it was, and the four
    arguments are stored as given, whatever they are (the call always
    returns).  The new sequence is then saved. *)
Theorem add_record_appends (self : MyCash.t) (disk : gmap string file)
    (date category : string) (price : Z) (description : string) :
  ∃ self' : MyCash.t,
    add_record self disk date category price description
      = (self', save_data self' disk, Return tt) ∧
    filepath self' = filepath self ∧
    records self' = records self ++ [Record.new date category price description] ∧
    length (records self') = S (length (records self)) ∧
    records self' !! length (records self)
      = Some (Record.new date category price description) ∧
    (∀ (i : nat) (r : Record.t),
       records self !! i = Some r → records self' !! i = Some r).
Proof.
  eexists. split; [reflexivity|]. simpl.
  split; [reflexivity|]. split; [reflexivity|]. split; [|split].
  - rewrite length_app. simpl. lia.
  - rewrite lookup_app_r by lia. by rewrite Nat.sub_diag.
  - intros i r Hi. by apply lookup_app_l_Some.
Qed.

End add.

(** ** Editing a record *)

Section edit.

Context (self : MyCash.t) (disk : gmap string file).

Lemma index_front {A} (l : list A) (i : Z) :
  0 ≤ i < Z.of_nat (length l) → Py.index l i = Some (Z.to_nat i).
Proof. intros Hi. unfold Py.index. by rewrite decide_True. Qed.

Lemma index_back {A} (l : list A) (i : Z) :
  - Z.of_nat (length l) ≤ i < 0 →
  Py.index l i = Some (Z.to_nat (Z.of_nat (length l) + i)).
Proof.
  intros Hi. unfold Py.index.
  rewrite decide_False by lia. by rewrite decide_True.
Qed.

Lemma index_outside {A} (l : list A) (i : Z) :
  i < - Z.of_nat (length l) ∨ Z.of_nat (length l) ≤ i → Py.index l i = None.
Proof.
  intros Hi. unfold Py.index.
  rewrite decide_False by lia. by rewrite decide_False by lia.
Qed.

Lemma index_lt {A} (l : list A) (i : Z) (k : nat) :
  Py.index l i = Some k → (k < length l)%nat.
Proof.
  unfold Py.index. repeat case_decide; intros; simplify_eq; lia.
Qed.

Lemma edit_record_at (i : Z) (k : nat) date category price description :
  Py.index (records self) i = Some k →
  ∃ old,
    records self !! k = Some old ∧
    edit_record self disk i date category price description =
      (let self' :=
         set_records
           (<[k := assigned date category price description old]> (records self))
           self in
       (self', save_data self' disk, Return tt)).
Proof.
  intros Hk.
  destruct (lookup_lt_is_Some_2 (records self) k) as [old Hold];
    [by eapply index_lt|].
  exists old. split; [done|].
  unfold edit_record, Py.getitem. by rewrite Hk, Hold.
Qed.

Lemma edit_record_outside (i : Z) date category price description :
  Py.index (records self) i = None →
  edit_record self disk i date category price description
    = (self, disk, Raise IndexError).
Proof. intros Hi. unfold edit_record, Py.getitem. by rewrite Hi. Qed.

Lemma truth_Some {A} `{Truthy A} (v : A) : truth (Some v) = truth v.
Proof. reflexivity. Qed.

Lemma truth_None {A} `{Truthy A} : truth (@None A) = false.
Proof. reflexivity. Qed.

Lemma assigned_fields date category price description (old : Record.t) :
  let new := assigned date category price description old in
  edited date (Record.date old) (Record.date new) ∧
  edited category (Record.category old) (Record.category new) ∧
  edited price (Record.price old) (Record.price new) ∧
  edited description (Record.description old) (Record.description new).
Proof.
  unfold assigned, edited, applied, assign.
  destruct date as [d|], category as [c|], price as [p|], description as [s|];
    rewrite ?truth_Some, ?truth_None;
    try destruct (truth d); try destruct (truth c);
    try destruct (truth p); try destruct (truth s);
    simpl; auto.
Qed.

End edit.

(** C3. For an index [0 <= i < len(records)], [edit_record] overwrites
    each field of record [i] for which a true-valued argument is given
    and leaves its other fields as they were; an amount of 0 and an
    empty description leave the stored amount and description; no other
    record changes. *)
Theorem edit_record_overwrites (self : MyCash.t) (disk : gmap string file)
    (i : Z) (date category : option string) (price : option Z)
    (description : option string) :
  0 ≤ i < Z.of_nat (length (records self)) →
  ∃ (old new : Record.t) (self' : MyCash.t),
    records self !! Z.to_nat i = Some old ∧
    edit_record self disk i date category price description
      = (self', save_data self' disk, Return tt) ∧
    filepath self' = filepath self ∧
    records self' = <[Z.to_nat i := new]> (records self) ∧
    records self' !! Z.to_nat i = Some new ∧
    edited date (Record.date old) (Record.date new) ∧
    edited category (Record.category old) (Record.category new) ∧
    edited price (Record.price old) (Record.price new) ∧
    edited description (Record.description old) (Record.description new) ∧
    (price = Some 0 → Record.price new = Record.price old) ∧
    (description = Some "" → Record.description new = Record.description old) ∧
    length (records self') = length (records self) ∧
    (∀ j : nat, j ≠ Z.to_nat i → records self' !! j = records self !! j).
Proof.
  intros Hi.
  destruct (edit_record_at self disk i (Z.to_nat i)
              date category price description) as (old & Hold & Hrun);
    [by apply index_front|].
  destruct (assigned_fields date category price description old)
    as (Hd & Hc & Hp & Hs).
  exists old, (assigned date category price description old). eexists.
  split; [exact Hold|]. split; [exact Hrun|]. simpl.
  split; [reflexivity|]. split; [reflexivity|].
  split; [apply list_lookup_insert_eq; lia|].
  do 4 (split; [assumption|]).
  split; [by intros ->|]. split; [by intros ->|].
  split; [apply length_insert|].
  intros j Hj. by apply list_lookup_insert_ne.
Qed.

Lemma edit_record_overwrites_witness :
  0 ≤ 1 < Z.of_nat (length (records Sample.ledger)) ∧
  ∃ self' : MyCash.t,
    edit_record Sample.ledger ∅ 1 None None (Some 0) (Some "")
      = (self', save_data self' ∅, Return tt) ∧
    records self' !! 1%nat = Some Sample.groceries.
Proof.
  assert (Hi : 0 ≤ 1 < Z.of_nat (length (records Sample.ledger)))
    by (simpl; lia).
  split; [exact Hi|].
  destruct (edit_record_overwrites Sample.ledger ∅ 1 None None (Some 0) (Some "") Hi)
    as (old & new & self' & Hold & Hrun & _ & _ & Hnew & Hd & Hc & Hp & Hs & _).
  exists self'. split; [exact Hrun|].
  change (Z.to_nat 1) with 1%nat in *.
  rewrite Hnew. f_equal.
  simpl in Hold. injection Hold as <-.
  destruct new. cbv in Hd, Hc, Hp, Hs. subst. reflexivity.
Defined.

(** C4, the claim as stated fails: on a one-record ledger the index -1
    denotes the last record, so the edit returns and changes it. *)
Lemma edit_record_negative_index_edits :
  ∃ (self' : MyCash.t) (disk' : gmap string file),
    edit_record (MyCash.mk "user.json" [Sample.salary]) ∅ (-1)
                None None (Some 1500) None
      = (self', disk', Return tt) ∧
    records self' = [Record.new "2024-05-02" Income 1500 "Salary"] ∧
    records self' ≠ [Sample.salary].
Proof.
  eexists. eexists. split; [reflexivity|]. simpl.
  split; [reflexivity|]. discriminate.
Qed.

(** C4, amended. For an index [i >= len(records)] or [i < -len(records)]
    [edit_record] raises [IndexError] and leaves the records and the
    disk as they were.  An index [-len(records) <= i < 0] denotes the
    existing record [len(records) + i], which is edited. *)
Theorem edit_record_index_error (self : MyCash.t) (disk : gmap string file)
    (i : Z) (date category : option string) (price : option Z)
    (description : option string) :
  (i < - Z.of_nat (length (records self)) ∨ Z.of_nat (length (records self)) ≤ i →
   edit_record self disk i date category price description
     = (self, disk, Raise IndexError)) ∧
  (- Z.of_nat (length (records self)) ≤ i < 0 →
   ∃ (old : Record.t) (self' : MyCash.t),
     let k := Z.to_nat (Z.of_nat (length (records self)) + i) in
     records self !! k = Some old ∧
     edit_record self disk i date category price description
       = (self', save_data self' disk, Return tt) ∧
     records self'
       = <[k := assigned date category price description old]> (records self)).
Proof.
  split.
  - intros Hi. apply edit_record_outside. by apply index_outside.
  - intros Hi.
    destruct (edit_record_at self disk i
                (Z.to_nat (Z.of_nat (length (records self)) + i))
                date category price description) as (old & Hold & Hrun);
      [by apply index_back|].
    exists old. eexists. split; [exact Hold|]. split; [exact Hrun|].
    reflexivity.
Qed.

Lemma edit_record_index_error_witness :
  edit_record Sample.ledger ∅ 2 None None (Some 7) None
    = (Sample.ledger, ∅, Raise IndexError) ∧
  edit_record Sample.ledger ∅ (-3) None None (Some 7) None
    = (Sample.ledger, ∅, Raise IndexError) ∧
  ∃ self' : MyCash.t,
    edit_record Sample.ledger ∅ (-2) None None (Some 7) None
      = (self', save_data self' ∅, Return tt) ∧
    records self'
      = [Record.new "2024-05-02" Income 7 "Salary"; Sample.groceries].
Proof.
  split; [|split].
  - apply (edit_record_index_error Sample.ledger ∅ 2). simpl. lia.
  - apply (edit_record_index_error Sample.ledger ∅ (-3)). simpl. lia.
  - destruct (edit_record_index_error Sample.ledger ∅ (-2) None None (Some 7) None)
      as [_ Hback].
    destruct Hback as (old & self' & Hold & Hrun & Hrecs); [simpl; lia|].
    exists self'. split; [exact Hrun|].
    rewrite Hrecs. simpl in Hold. injection Hold as <-. reflexivity.
Defined.

(** ** Splitting dates *)

Section split.

Context (sep : ascii).

Lemma split_head (s : string) : ∃ part parts, Py.split sep s = part :: parts.
Proof.
  induction s as [|c s (part & parts & IH)]; simpl; [by eauto|].
  destruct (Ascii.eqb c sep); [by eauto|]. rewrite IH. by eauto.
Qed.

Lemma split_app_sep (a b : string) :
  Py.split sep (a +:+ String sep b) = Py.split sep a ++ Py.split sep b.
Proof.
  induction a as [|c a IH]; simpl.
  - by rewrite Ascii.eqb_refl.
  - rewrite IH. destruct (Ascii.eqb c sep); [done|].
    by destruct (split_head a) as (part & parts & ->).
Qed.

Lemma split_prefix_inv (query d : string) :
  Py.split sep query `prefix_of` Py.split sep d →
  d = query ∨ ∃ rest, d = query +:+ String sep rest.
Proof.
  revert d. induction query as [|a query IH]; intros d Hpre.
  - destruct d as [|c d]; [by left|]. simpl in Hpre.
    destruct (Ascii.eqb c sep) eqn:Ec.
    + apply Ascii.eqb_eq in Ec as ->. right. by exists d.
    + destruct (split_head d) as (part & parts & Hd). rewrite Hd in Hpre.
      by apply prefix_cons_inv_1 in Hpre.
  - simpl in Hpre. destruct (Ascii.eqb a sep) eqn:Ea.
    + apply Ascii.eqb_eq in Ea as ->.
      destruct d as [|c d]; simpl in Hpre.
      { apply prefix_cons_inv_2, prefix_nil_inv in Hpre.
        by destruct (split_head query) as (? & ? & Hq); rewrite Hq in Hpre. }
      destruct (Ascii.eqb c sep) eqn:Ec.
      * apply Ascii.eqb_eq in Ec as ->.
        apply prefix_cons_inv_2, IH in Hpre as [->|[rest ->]];
          [by left|right; by exists rest].
      * destruct (split_head d) as (part & parts & Hd). rewrite Hd in Hpre.
        by apply prefix_cons_inv_1 in Hpre.
    + destruct (split_head query) as (part & parts & Hq). rewrite Hq in Hpre.
      destruct d as [|c d]; simpl in Hpre;
        [by apply prefix_cons_inv_1 in Hpre|].
      destruct (Ascii.eqb c sep) eqn:Ec;
        [by apply prefix_cons_inv_1 in Hpre|].
      destruct (split_head d) as (part' & parts' & Hd). rewrite Hd in Hpre.
      pose proof (prefix_cons_inv_1 _ _ _ _ Hpre) as Hhead.
      apply prefix_cons_inv_2 in Hpre.
      injection Hhead as -> ->.
      destruct (IH d) as [->|[rest ->]];
        [rewrite Hq, Hd; by apply prefix_cons|by left|right; by exists rest].
Qed.

Lemma split_prefix_iff (query d : string) :
  Py.split sep query `prefix_of` Py.split sep d ↔
  d = query ∨ ∃ rest, d = query +:+ String sep rest.
Proof.
  split; [apply split_prefix_inv|].
  intros [->|[rest ->]]; [done|].
  rewrite split_app_sep. by apply prefix_app_r.
Qed.

Lemma split_prefix_same_length (query d : string) :
  (length (Py.split sep d) ≤ length (Py.split sep query))%nat →
  Py.split sep query `prefix_of` Py.split sep d ↔ d = query.
Proof.
  intros Hlen. rewrite split_prefix_iff. split; [|by left].
  intros [->|[rest ->]]; [done|].
  rewrite split_app_sep, length_app in Hlen.
  destruct (split_head rest) as (part & parts & Hrest).
  rewrite Hrest in Hlen. simpl in Hlen. lia.
Qed.

End split.

Lemma take_length_prefix {A} (l1 l2 : list A) :
  take (length l1) l2 = l1 ↔ l1 `prefix_of` l2.
Proof.
  split.
  - intros Htake. exists (drop (length l1) l2).
    rewrite <- Htake at 1. by rewrite take_drop.
  - intros [k ->]. apply take_app_length.
Qed.

(** ** Searching *)

Section search.

Context (category date : option string) (price : option Z).

Lemma category_differs_false (r : Record.t) :
  category_differs category r = false ↔
  criterion (λ c, Record.category r = c) (applied category).
Proof.
  unfold category_differs, applied.
  destruct category as [c|]; [|done].
  rewrite truth_Some. destruct (truth c); simpl; [|done].
  rewrite negb_false_iff, String.eqb_eq. naive_solver.
Qed.

Lemma date_differs_false (r : Record.t) :
  date_differs date r = false ↔
  criterion (λ d, date_matches d r) (applied date).
Proof.
  unfold date_differs, applied, date_matches.
  destruct date as [d|]; [|done].
  rewrite truth_Some. destruct (truth d); simpl; [|done].
  rewrite negb_false_iff, bool_decide_eq_true. apply take_length_prefix.
Qed.

Lemma price_differs_false (r : Record.t) :
  price_differs price r = false ↔
  criterion (λ p, Record.price r = p) (applied price).
Proof.
  unfold price_differs, applied.
  destruct price as [p|]; [|done].
  rewrite truth_Some. destruct (truth p); simpl; [|done].
  rewrite negb_false_iff, Z.eqb_eq. naive_solver.
Qed.

Lemma skipped_false (r : Record.t) :
  category_differs category r || date_differs date r || price_differs price r
    = false ↔
  matches (applied category) (applied date) (applied price) r.
Proof.
  unfold matches.
  rewrite <- category_differs_false, <- date_differs_false, <- price_differs_false.
  rewrite !orb_false_iff. tauto.
Qed.

Lemma search_loop_filter (rs results : list Record.t) :
  search_loop category date price rs results =
  results ++ filter (matches (applied category) (applied date) (applied price)) rs.
Proof.
  revert results. induction rs as [|r rs IH]; intros results; simpl.
  - by rewrite app_nil_r.
  - rewrite filter_cons. pose proof (skipped_false r) as Hkeep.
    destruct (category_differs category r), (date_differs date r),
      (price_differs price r);
      simpl in Hkeep; rewrite IH; case_decide as Hm;
      first [ done
            | by rewrite <- app_assoc
            | by apply Hkeep in Hm
            | by destruct Hm; apply Hkeep ].
Qed.

End search.

Lemma search_records_filter (self : MyCash.t)
    (category date : option string) (price : option Z) :
  search_records self category date price =
  filter (matches (applied category) (applied date) (applied price)) (records self).
Proof. unfold search_records. by rewrite search_loop_filter. Qed.

Lemma filter_all {A} (P : A → Prop) `{∀ x, Decision (P x)} (l : list A) :
  (∀ x, P x) → filter P l = l.
Proof.
  intros HP. induction l as [|x l IH]; [done|].
  rewrite filter_cons_True by done. by rewrite IH.
Qed.

Lemma applied_nonempty (query : string) :
  query ≠ "" → applied (Some query) = Some query.
Proof.
  intros Hq. unfold applied. rewrite truth_Some.
  unfold truth, str_truthy.
  destruct (String.eqb query "") eqn:E; [|done].
  by apply String.eqb_eq in E.
Qed.

Lemma applied_str (arg : option string) :
  arg ≠ Some "" → applied arg = arg.
Proof.
  destruct arg as [s|]; [|done]. intros Hs.
  apply applied_nonempty. congruence.
Qed.

Lemma applied_int (arg : option Z) :
  arg ≠ Some 0 → applied arg = arg.
Proof.
  destruct arg as [z|]; [|done]. intros Hz.
  unfold applied. rewrite truth_Some. unfold truth, int_truthy.
  destruct (Z.eqb z 0) eqn:E; [|done].
  apply Z.eqb_eq in E. congruence.
Qed.

Lemma search_records_no_criterion (self : MyCash.t) :
  search_records self None None None = records self.
Proof.
  rewrite search_records_filter. apply filter_all.
  intros r. by repeat split.
Qed.

(** C2, the claim as stated fails: the empty query string is not
    applied at all, so it matches a record whose first component is not
    empty; and a full date matches a record whose date goes on after
    it. *)
Lemma search_records_date_query_counterexample :
  search_records Sample.ledger None (Some "") None
    = [Sample.salary; Sample.groceries] ∧
  ¬ date_matches "" Sample.salary ∧
  search_records
    (MyCash.mk "user.json" [Record.new "2024-05-02-01" Income 30000 "Salary"])
    None (Some "2024-05-02") None
    = [Record.new "2024-05-02-01" Income 30000 "Salary"].
Proof.
  split; [reflexivity|]. split; [|reflexivity].
  intros Hm. apply split_prefix_inv in Hm as [Hm|[rest Hm]]; discriminate.
Qed.

(** C2, amended. For a non-empty date query, [search_records] with only
    a date criterion returns the records whose leading date components,
    after splitting date and query on ["-"], are the components of the
    query in order.  Such a date is the query itself or the query
    followed by ["-"] and more text: a year matches every record of the
    year, a year and month every record of the month.  Among the dates
    with no more components than the query, a full date matches exactly
    itself.  The empty query is not applied and returns every record. *)
Theorem search_records_by_date (self : MyCash.t) :
  (∀ query : string, query ≠ "" →
     search_records self None (Some query) None
       = filter (date_matches query) (records self) ∧
     (∀ r, r ∈ search_records self None (Some query) None ↔
           r ∈ records self ∧ date_matches query r) ∧
     (∀ r, date_matches query r ↔
           Record.date r = query ∨
           ∃ rest, Record.date r = query +:+ "-" +:+ rest) ∧
     (∀ r, (length (Py.split "-" (Record.date r))
              ≤ length (Py.split "-" query))%nat →
           date_matches query r ↔ Record.date r = query)) ∧
  search_records self None (Some "") None = records self.
Proof.
  split;
    [|rewrite <- (search_records_no_criterion self);
      by rewrite !search_records_filter].
  intros query Hq.
  assert (Hfilter : search_records self None (Some query) None
                    = filter (date_matches query) (records self)).
  { rewrite search_records_filter, applied_nonempty by done.
    apply list_filter_iff. intros r. unfold matches. simpl. tauto. }
  split; [exact Hfilter|]. split; [|split].
  - intros r. rewrite Hfilter, list_elem_of_filter. tauto.
  - intros r. apply split_prefix_iff.
  - intros r. apply split_prefix_same_length.
Qed.

Lemma search_records_by_date_witness :
  "2024-05" ≠ "" ∧
  search_records Sample.ledger None (Some "2024-05") None
    = [Sample.salary; Sample.groceries] ∧
  date_matches "2024-05" Sample.groceries.
Proof.
  assert (Hq : "2024-05" ≠ "") by discriminate.
  split; [exact Hq|].
  destruct (search_records_by_date Sample.ledger) as [Hdate _].
  destruct (Hdate "2024-05" Hq) as (Hfilter & _ & Hiff & _).
  split; [by rewrite Hfilter|].
  apply Hiff. right. by exists "03".
Defined.

(** C6, the claim as stated fails: with the amount criterion 0 given,
    the records matching all given criteria are those of amount 0 (none
    here), but every record is returned. *)
Lemma zero_amount_criterion_counterexample :
  search_records Sample.ledger None None (Some 0)
    = [Sample.salary; Sample.groceries] ∧
  filter (matches None None (Some 0)) (records Sample.ledger) = [].
Proof. split; reflexivity. Qed.

(** C6, amended. [search_records] returns, in their original order, the
    records meeting every criterion that is applied; a criterion is
    applied when it is given and true-valued, so an absent criterion, an
    empty string and the amount 0 all act as wildcards.  An applied
    category and an applied amount match by equality.  When no given
    criterion is empty or 0 the result is the records meeting all given
    criteria; with the category Expense alone it is the Expense records
    in order. *)
Theorem search_records_matching (self : MyCash.t)
    (category date : option string) (price : option Z) :
  search_records self category date price
    = filter (matches (applied category) (applied date) (applied price))
             (records self) ∧
  search_records self category date price `sublist_of` records self ∧
  (category ≠ Some "" → date ≠ Some "" → price ≠ Some 0 →
   search_records self category date price
     = filter (matches category date price) (records self)) ∧
  search_records self (Some Expense) None None
    = filter (λ r, Record.category r = Expense) (records self).
Proof.
  split; [apply search_records_filter|]. split; [|split].
  - rewrite search_records_filter. apply sublist_filter.
  - intros Hc Hd Hp. rewrite search_records_filter.
    by rewrite (applied_str category), (applied_str date), (applied_int price).
  - rewrite search_records_filter. apply list_filter_iff.
    intros r. unfold matches. simpl. tauto.
Qed.

Lemma search_records_matching_witness :
  Some Expense ≠ Some "" ∧ Some "2024" ≠ Some "" ∧ Some 1500 ≠ Some 0 ∧
  search_records Sample.ledger (Some Expense) (Some "2024") (Some 1500)
    = [Sample.groceries].
Proof.
  assert (Hc : Some Expense ≠ Some "") by discriminate.
  assert (Hd : Some "2024" ≠ Some "") by discriminate.
  assert (Hp : Some 1500 ≠ Some 0) by discriminate.
  do 3 (split; [assumption|]).
  destruct (search_records_matching Sample.ledger
              (Some Expense) (Some "2024") (Some 1500)) as (_ & _ & Hgiven & _).
  by rewrite Hgiven.
Defined.

(** C9. With the amount criterion 0 the amount test is not applied:
    the search returns what it returns without an amount criterion, and
    [search_records(price=0)] returns every record whatever its
    amount. *)
Theorem zero_amount_is_no_criterion (self : MyCash.t)
    (category date : option string) :
  search_records self category date (Some 0)
    = search_records self category date None ∧
  search_records self None None (Some 0) = records self.
Proof.
  split.
  - by rewrite !search_records_filter.
  - rewrite <- (search_records_no_criterion self).
    by rewrite !search_records_filter.
Qed.

(** ** Loading and saving *)

Section load.

Lemma dict_get_None (k : string) (members : list (string * json)) :
  dict_get k members = None ↔ k ∉ members.*1.
Proof.
  induction members as [|[k' v] members IH]; simpl.
  - split; [intros _; apply not_elem_of_nil|done].
  - rewrite not_elem_of_cons. destruct (dict_get k members).
    + split; [done|]. intros [_ Hk]. by apply IH in Hk.
    + destruct (String.eqb_spec k k') as [->|Hne];
        [split; [done|by intros [Hk _]]|].
      split; [|done]. intros _. split; [done|]. by apply IH.
Qed.

Lemma is_param (k : string) :
  existsb (String.eqb k) Record.params = true ↔ k ∈ Record.params.
Proof.
  rewrite existsb_exists. split.
  - intros (k' & Hin & Heq). apply String.eqb_eq in Heq as ->.
    by apply list_elem_of_In.
  - intros Hin. exists k. split; [by apply list_elem_of_In|].
    apply String.eqb_refl.
Qed.

Lemma of_kwargs_shaped (item : json) :
  entry_shaped item → ∀ e, Record.of_kwargs item ≠ Raise e.
Proof.
  intros (members & -> & Hkeys) e. unfold Record.of_kwargs.
  assert (forallb (λ kv, existsb (String.eqb kv.1) Record.params) members = true)
    as ->.
  { apply forallb_forall. intros kv Hin. apply is_param, Hkeys.
    apply list_elem_of_fmap. exists kv. split; [done|]. by apply list_elem_of_In. }
  assert (∀ k, k ∈ Record.params → ∃ v, dict_get k members = Some v) as Hget.
  { intros k Hk. destruct (dict_get k members) as [v|] eqn:E; [by eauto|].
    apply dict_get_None in E. by apply Hkeys in Hk. }
  destruct (Hget "date") as [d ->]; [by repeat constructor|].
  destruct (Hget "category") as [c ->]; [by repeat constructor|].
  destruct (Hget "price") as [p ->]; [by repeat constructor|].
  destruct (Hget "description") as [s ->]; [by repeat constructor|].
  by destruct d, c, p, s.
Qed.

Lemma of_kwargs_raises (item : json) (e : exn) :
  Record.of_kwargs item = Raise e → e = TypeError ∧ ¬ entry_shaped item.
Proof.
  intros Hraise. split.
  - unfold Record.of_kwargs in Hraise.
    repeat case_match; simplify_eq; done.
  - intros Hshaped. by eapply of_kwargs_shaped.
Qed.

Lemma of_kwargs_dict (r : Record.t) : Record.of_kwargs (Record.dict r) = Return r.
Proof. by destruct r. Qed.

Lemma set_records_same (self : MyCash.t) : set_records (records self) self = self.
Proof. by destruct self. Qed.

(** The records an array decodes to. *)
Lemma load_loop_returns (items : list json) (self self' : MyCash.t) :
  load_loop items self = (self', Return tt) →
  ∃ loaded,
    Forall2 (λ item r, Record.of_kwargs item = Return r) items loaded ∧
    self' = set_records (records self ++ loaded) self.
Proof.
  revert self. induction items as [|item items IH]; intros self; simpl.
  - intros [= <-]. exists []. split; [constructor|].
    by rewrite app_nil_r, set_records_same.
  - destruct (Record.of_kwargs item) as [r| |] eqn:Hitem; [|done..].
    intros (loaded & Hall & ->)%IH. exists (r :: loaded).
    split; [by constructor|]. simpl. by rewrite <- app_assoc.
Qed.

Lemma load_loop_decoded (items : list json) (loaded : list Record.t)
    (self : MyCash.t) :
  Forall2 (λ item r, Record.of_kwargs item = Return r) items loaded →
  load_loop items self = (set_records (records self ++ loaded) self, Return tt).
Proof.
  intros Hall. revert self.
  induction Hall as [|item r items loaded Hitem _ IH]; intros self; simpl.
  - by rewrite app_nil_r, set_records_same.
  - rewrite Hitem, IH. simpl. by rewrite <- app_assoc.
Qed.

Lemma load_loop_raises (items : list json) (self self' : MyCash.t) (e : exn) :
  load_loop items self = (self', Raise e) →
  e = TypeError ∧ ¬ Forall entry_shaped items.
Proof.
  revert self. induction items as [|item items IH]; intros self; simpl; [done|].
  destruct (Record.of_kwargs item) as [r| |] eqn:Hitem; [| |done].
  - intros [-> Hnot]%IH. split; [done|].
    intros Hall. apply Hnot. by eapply Forall_cons_1.
  - intros [= <- <-]. apply of_kwargs_raises in Hitem as [-> Hnot].
    split; [done|]. intros Hall. apply Hnot. by eapply Forall_cons_1.
Qed.

Lemma dict_shaped (r : Record.t) : entry_shaped (Record.dict r).
Proof.
  eexists. split; [reflexivity|]. intros k. simpl. unfold Record.params.
  set_solver.
Qed.

Lemma load_saved (self other : MyCash.t) (disk : gmap string file) :
  filepath other = filepath self →
  load_data other (save_data self disk)
    = (set_records (records other ++ records self) other, Return tt).
Proof.
  intros Hpath. unfold load_data, save_data.
  rewrite Hpath, lookup_insert_eq.
  apply load_loop_decoded.
  induction (records self) as [|r rs IH]; constructor; [|done].
  apply of_kwargs_dict.
Qed.

End load.

Lemma load_data_returns (self self' : MyCash.t) (disk : gmap string file)
    (f : file) :
  disk !! filepath self = Some f →
  load_data self disk = (self', Return tt) →
  ∃ loaded,
    self' = set_records (records self ++ loaded) self ∧
    ∀ other, filepath other = filepath self →
      load_data other disk
        = (set_records (records other ++ loaded) other, Return tt).
Proof.
  intros Hf. unfold load_data. rewrite Hf.
  assert (∃ loaded : list Record.t,
            self = set_records (records self ++ loaded) self ∧
            ∀ other, (other, Return tt)
                     = (set_records (records other ++ loaded) other, Return tt))
    as Hnothing.
  { exists []. split; [|intros other];
      by rewrite app_nil_r, set_records_same. }
  destruct f as [|data]; [done|].
  destruct data as [| | | |s|items|members].
  1-4: done.
  - destruct s; [|done]. intros [= <-].
    destruct Hnothing as (loaded & Hself & Hother). exists loaded.
    split; [done|]. intros other ->. rewrite Hf. apply Hother.
  - intros (loaded & Hall & ->)%load_loop_returns. exists loaded.
    split; [done|]. intros other ->. rewrite Hf.
    by apply load_loop_decoded.
  - destruct members; [|done]. intros [= <-].
    destruct Hnothing as (loaded & Hself & Hother). exists loaded.
    split; [done|]. intros other ->. rewrite Hf. apply Hother.
Qed.

Lemma app_self_ne {A} (l : list A) : l ≠ [] → l ++ l ≠ l.
Proof.
  intros Hl Heq. apply (f_equal length) in Heq.
  rewrite length_app in Heq. destruct l; [done|]. simpl in Heq. lia.
Qed.

(** C7. Saving a store and then constructing a fresh store for the same
    user, which loads the same storage, gives the same sequence of
    records: the same four fields, in the same order. *)
Theorem save_load_round_trip (self : MyCash.t) (disk : gmap string file)
    (username : string) :
  filepath self = username +:+ ".json" →
  ∃ fresh : MyCash.t,
    init username (save_data self disk) = (fresh, Return tt) ∧
    records fresh = records self ∧
    fresh = self.
Proof.
  intros Hpath. exists self. split; [|done].
  unfold init. rewrite (load_saved self) by done.
  simpl. f_equal. destruct self. simpl in *. by subst.
Qed.

Lemma save_load_round_trip_witness :
  filepath Sample.ledger = "user" +:+ ".json" ∧
  ∃ fresh : MyCash.t,
    init "user" (save_data Sample.ledger ∅) = (fresh, Return tt) ∧
    records fresh = [Sample.salary; Sample.groceries].
Proof.
  assert (Hpath : filepath Sample.ledger = "user" +:+ ".json") by reflexivity.
  split; [exact Hpath|].
  destruct (save_load_round_trip Sample.ledger ∅ "user" Hpath)
    as (fresh & Hrun & Hrecords & _).
  exists fresh. split; [exact Hrun|]. by rewrite Hrecords.
Defined.

(** C8. [load_data] raises only when the storage file exists and is
    malformed, that is, is not a JSON array of objects with exactly the
    four record fields; what it raises is a decoding error or a type
    error, never the missing-file error.  A missing file is no error
    and leaves the store with the empty sequence.  What [save_data]
    writes is never malformed. *)
Theorem load_data_read_error (self : MyCash.t) (disk : gmap string file) :
  (disk !! filepath self = None →
   load_data self disk = (set_records [] self, Return tt)) ∧
  (∀ (self' : MyCash.t) (e : exn),
     load_data self disk = (self', Raise e) →
     ReadError e ∧
     ∃ f, disk !! filepath self = Some f ∧ ¬ well_formed f) ∧
  (∃ f, save_data self disk !! filepath self = Some f ∧ well_formed f).
Proof.
  split; [|split].
  - intros Hf. unfold load_data. by rewrite Hf.
  - intros self' e. unfold load_data, ReadError, well_formed.
    destruct (disk !! filepath self) as [[|data]|] eqn:Hf; [| |done].
    { intros [= <- <-]. split; [by left|]. eexists. split; [done|].
      by intros (items & ? & _). }
    intros Hraise.
    assert (e = TypeError ∧ ∀ items, data = JArr items → ¬ Forall entry_shaped items)
      as [-> Hbad].
    { destruct data as [| | | |s|items|members].
      1-4: by injection Hraise as <- <-.
      - destruct s; [done|]. by injection Hraise as <- <-.
      - apply load_loop_raises in Hraise as [-> Hnot].
        split; [done|]. by intros ? [= <-].
      - destruct members; [done|]. by injection Hraise as <- <-. }
    split; [by right|]. eexists. split; [done|].
    intros (items & [= ->] & Hall). by eapply Hbad.
  - eexists. split; [apply lookup_insert_eq|].
    eexists. split; [done|].
    induction (records self) as [|r rs IH]; constructor; [|done].
    apply dict_shaped.
Qed.

Lemma load_data_read_error_witness :
  load_data Sample.ledger ∅ = (set_records [] Sample.ledger, Return tt) ∧
  ReadError JSONDecodeError ∧
  ¬ well_formed Unparsable ∧
  ¬ well_formed (Json (JArr [JObj [("date", JStr "2024-05-02")]])).
Proof.
  split; [|split; [|split]].
  - by apply (load_data_read_error Sample.ledger ∅).
  - destruct (load_data_read_error Sample.ledger {["user.json" := Unparsable]})
      as (_ & Hraise & _).
    by destruct (Hraise Sample.ledger JSONDecodeError) as [He _].
  - destruct (load_data_read_error Sample.ledger {["user.json" := Unparsable]})
      as (_ & Hraise & _).
    destruct (Hraise Sample.ledger JSONDecodeError) as (_ & f & Hf & Hbad); [done|].
    by injection Hf as <-.
  - destruct (load_data_read_error Sample.ledger
                {["user.json" := Json (JArr [JObj [("date", JStr "2024-05-02")]])]})
      as (_ & Hraise & _).
    destruct (Hraise Sample.ledger TypeError) as (_ & f & Hf & Hbad); [done|].
    by injection Hf as <-.
Defined.

Lemma load_loop_keeps (items : list json) (self self' : MyCash.t)
    (r : result unit) :
  load_loop items self = (self', r) →
  ∃ (n : nat) (loaded : list Record.t),
    Forall2 (λ item rec, Record.of_kwargs item = Return rec) (take n items) loaded ∧
    self' = set_records (records self ++ loaded) self.
Proof.
  revert self. induction items as [|item items IH]; intros self; simpl.
  - intros [= <- <-]. exists 0%nat, []. split; [constructor|].
    by rewrite app_nil_r, set_records_same.
  - destruct (Record.of_kwargs item) as [rec| |] eqn:Hitem.
    + intros (n & loaded & Hall & ->)%IH. exists (S n), (rec :: loaded).
      split; [by constructor|]. simpl. by rewrite <- app_assoc.
    + intros [= <- <-]. exists 0%nat, []. split; [constructor|].
      by rewrite app_nil_r, set_records_same.
    + intros [= <- <-]. exists 0%nat, []. split; [constructor|].
      by rewrite app_nil_r, set_records_same.
Qed.

Lemma load_data_keeps (self self' : MyCash.t) (disk : gmap string file)
    (f : file) (r : result unit) :
  disk !! filepath self = Some f →
  load_data self disk = (self', r) →
  ∃ loaded : list Record.t,
    self' = set_records (records self ++ loaded) self ∧
    match f with
    | Json (JArr items) =>
        ∃ n, Forall2 (λ item rec, Record.of_kwargs item = Return rec)
               (take n items) loaded
    | _ => loaded = []
    end.
Proof.
  intros Hf. unfold load_data. rewrite Hf.
  assert (self = set_records (records self ++ []) self) as Hsame
    by by rewrite app_nil_r, set_records_same.
  destruct f as [|data]; [intros [= <- <-]; by exists []|].
  destruct data as [| | | |s|items|members].
  1-4: intros [= <- <-]; by exists [].
  - destruct s; intros [= <- <-]; by exists [].
  - intros (n & loaded & Hall & ->)%load_loop_keeps. exists loaded.
    split; [done|]. by exists n.
  - destruct members; intros [= <- <-]; by exists [].
Qed.

(** C10. When [load_data] reads the storage file and returns, the
    records it decoded are appended to the records already in memory;
    the decoded records depend on the file alone.  Only a missing file
    resets the sequence to empty: whenever the file exists, whether the
    load returns or raises, the records in memory are kept and followed
    by what was decoded before the load ended (nothing, when the file
    is not an array), so a non-empty sequence never becomes empty.  So
    a store with a non-empty sequence that loads its storage a second
    time, after its construction or after saving, holds every record
    twice and no longer the stored sequence. *)
Theorem load_data_appends (self : MyCash.t) (disk : gmap string file) :
  (∀ (f : file) (self' : MyCash.t),
     disk !! filepath self = Some f →
     load_data self disk = (self', Return tt) →
     ∃ loaded : list Record.t,
       filepath self' = filepath self ∧
       records self' = records self ++ loaded ∧
       ∀ other, filepath other = filepath self →
         load_data other disk
           = (set_records (records other ++ loaded) other, Return tt)) ∧
  (disk !! filepath self = None →
   load_data self disk = (set_records [] self, Return tt)) ∧
  (∀ username : string,
     init username disk = (self, Return tt) →
     records self ≠ [] →
     ∃ again : MyCash.t,
       load_data self disk = (again, Return tt) ∧
       records again = records self ++ records self ∧
       records again ≠ records self) ∧
  (records self ≠ [] →
   ∃ again : MyCash.t,
     load_data self (save_data self disk) = (again, Return tt) ∧
     records again = records self ++ records self ∧
     records again ≠ records self) ∧
  (∀ (f : file) (self' : MyCash.t) (r : result unit),
     disk !! filepath self = Some f →
     load_data self disk = (self', r) →
     ∃ loaded : list Record.t,
       filepath self' = filepath self ∧
       records self' = records self ++ loaded ∧
       match f with
       | Json (JArr items) =>
           ∃ n, Forall2 (λ item rec, Record.of_kwargs item = Return rec)
                  (take n items) loaded
       | _ => loaded = []
       end) ∧
  (∀ (self' : MyCash.t) (r : result unit),
     load_data self disk = (self', r) →
     records self ≠ [] → records self' = [] →
     disk !! filepath self = None ∧ r = Return tt).
Proof.
  split; [|split; [|split; [|split; [|split]]]].
  6: { intros self' r Hrun Hrecords Hempty.
       destruct (disk !! filepath self) as [f|] eqn:Hf.
       - destruct (load_data_keeps self self' disk f r Hf Hrun)
           as (loaded & -> & _).
         simpl in Hempty. by apply app_eq_nil in Hempty as [? _].
       - split; [done|]. unfold load_data in Hrun. rewrite Hf in Hrun.
         by injection Hrun as _ <-. }
  5: { intros f self' r Hf Hrun.
       destruct (load_data_keeps self self' disk f r Hf Hrun)
         as (loaded & -> & Hloaded).
       by exists loaded. }
  - intros f self' Hf Hrun.
    destruct (load_data_returns self self' disk f Hf Hrun)
      as (loaded & -> & Hother).
    by exists loaded.
  - intros Hf. unfold load_data. by rewrite Hf.
  - intros username Hinit Hrecords. unfold init in Hinit.
    set (fresh := MyCash.mk (username +:+ ".json") []) in Hinit.
    destruct (disk !! filepath fresh) as [f|] eqn:Hf.
    + destruct (load_data_returns fresh self disk f Hf Hinit)
        as (loaded & Hself & Hother).
      assert (records self = loaded) as <- by by rewrite Hself.
      eexists. split; [apply Hother; by rewrite Hself|].
      split; [done|]. by apply app_self_ne.
    + unfold load_data in Hinit. rewrite Hf in Hinit.
      injection Hinit as <-. done.
  - intros Hrecords. eexists.
    split; [by apply load_saved|]. split; [done|]. by apply app_self_ne.
Qed.

Lemma load_data_appends_witness :
  ∃ again : MyCash.t,
    load_data Sample.ledger (save_data Sample.ledger ∅) = (again, Return tt) ∧
    records again
      = [Sample.salary; Sample.groceries; Sample.salary; Sample.groceries] ∧
    load_data Sample.ledger ∅ = (set_records [] Sample.ledger, Return tt) ∧
    ∃ loaded : list Record.t,
      records (load_data Sample.ledger {["user.json" := Unparsable]}).1
        = records Sample.ledger ++ loaded ∧
      loaded = [].
Proof.
  destruct (load_data_appends Sample.ledger (save_data Sample.ledger ∅))
    as (_ & _ & Hinit & _).
  destruct (Hinit "user") as (again & Hrun & Hrecords & _); [done|done|].
  exists again. split; [exact Hrun|]. split; [by rewrite Hrecords|].
  split; [by apply (load_data_appends Sample.ledger ∅)|].
  destruct (load_data_appends Sample.ledger {["user.json" := Unparsable]})
    as (_ & _ & _ & _ & Hkeeps & _).
  destruct (Hkeeps Unparsable Sample.ledger (Raise JSONDecodeError))
    as (loaded & _ & Hrecords' & Hloaded); [done|done|].
  by exists loaded.
Defined.

(** ** Decoding stored entries *)

Section decoding.

Lemma of_kwargs_not_shaped (item : json) :
  ¬ entry_shaped item → Record.of_kwargs item = Raise TypeError.
Proof.
  intros Hnot. destruct item as [| | | | | |members]; try done.
  unfold Record.of_kwargs.
  destruct (forallb _ members) eqn:Hall; [|done].
  destruct (dict_get "date" members) as [d|] eqn:Hd; [|done].
  destruct (dict_get "category" members) as [c|] eqn:Hc; [|done].
  destruct (dict_get "price" members) as [p|] eqn:Hp; [|done].
  destruct (dict_get "description" members) as [s|] eqn:Hs; [|done].
  destruct Hnot. exists members. split; [done|]. intros k. split.
  - intros (kv & -> & Hin)%list_elem_of_fmap. apply is_param.
    rewrite forallb_forall in Hall. apply (Hall kv). by apply list_elem_of_In.
  - intros Hk. destruct (decide (k ∈ members.*1)) as [|Hout]; [done|].
    apply dict_get_None in Hout. unfold Record.params in Hk.
    set_unfold in Hk. destruct Hk as [-> | [-> | [-> | [-> | []]]]]; congruence.
Qed.

(** X1. Building a record from a stored item raises exactly when the
    item is not an object whose keys are exactly date, category, price
    and description (a missing key, an extra key, or no object at all),
    and what it raises is always a [TypeError]. *)
Theorem record_of_item_raises (item : json) :
  (Record.of_kwargs item = Raise TypeError ↔ ¬ entry_shaped item) ∧
  (∀ e, Record.of_kwargs item = Raise e → e = TypeError).
Proof.
  split; [split|].
  - intros Hraise. by apply of_kwargs_raises in Hraise as [_ Hnot].
  - apply of_kwargs_not_shaped.
  - intros e Hraise. by apply of_kwargs_raises in Hraise as [-> _].
Qed.

Lemma load_loop_stops (good rest : list json) (bad : json)
    (loaded : list Record.t) (self : MyCash.t) :
  Forall2 (λ item r, Record.of_kwargs item = Return r) good loaded →
  ¬ entry_shaped bad →
  load_loop (good ++ bad :: rest) self
    = (set_records (records self ++ loaded) self, Raise TypeError).
Proof.
  intros Hgood Hbad. revert self.
  induction Hgood as [|item r good loaded Hitem _ IH]; intros self; simpl.
  - rewrite of_kwargs_not_shaped by done.
    by rewrite app_nil_r, set_records_same.
  - rewrite Hitem, IH. simpl. by rewrite <- app_assoc.
Qed.

(** X2. Loading is not all-or-nothing: when the stored array has a
    malformed item, [load_data] raises [TypeError], but the records
    decoded from the items before it have already been appended to the
    store and stay there; the items after it are not looked at. *)
Theorem load_data_stops_at_malformed_item (self : MyCash.t)
    (disk : gmap string file) (good rest : list json) (bad : json)
    (loaded : list Record.t) :
  disk !! filepath self = Some (Json (JArr (good ++ bad :: rest))) →
  Forall2 (λ item r, Record.of_kwargs item = Return r) good loaded →
  ¬ entry_shaped bad →
  load_data self disk
    = (set_records (records self ++ loaded) self, Raise TypeError).
Proof.
  intros Hf Hgood Hbad. unfold load_data. rewrite Hf.
  by apply load_loop_stops.
Qed.

Lemma load_data_stops_at_malformed_item_witness :
  load_data (MyCash.mk "user.json" [])
    {["user.json" :=
        Json (JArr [Record.dict Sample.salary; JNull; Record.dict Sample.groceries])]}
    = (MyCash.mk "user.json" [Sample.salary], Raise TypeError).
Proof.
  apply (load_data_stops_at_malformed_item (MyCash.mk "user.json" [])
           _ [Record.dict Sample.salary] [Record.dict Sample.groceries] JNull
           [Sample.salary]).
  - reflexivity.
  - by repeat constructor.
  - by intros (members & ? & _).
Defined.

Lemma dict_get_Some (k : string) (v : json) (members : list (string * json)) :
  NoDup members.*1 → dict_get k members = Some v ↔ (k, v) ∈ members.
Proof.
  revert v. induction members as [|[k' v'] members IH]; simpl; intros v Hdup.
  - split; [done|]. by intros ?%not_elem_of_nil.
  - apply NoDup_cons in Hdup as [Hk' Hdup].
    rewrite elem_of_cons.
    assert (∀ w, (k, w) ∈ members → k ∈ members.*1) as Hkey.
    { intros w Hin. apply list_elem_of_fmap. by exists (k, w). }
    destruct (dict_get k members) as [w|] eqn:Hget.
    + assert ((k, w) ∈ members) as Hin by by apply IH.
      rewrite (IH v Hdup).
      split; [by right|]. intros [[= -> ->]|Hv]; [|done].
      destruct Hk'. by eapply Hkey.
    + apply dict_get_None in Hget.
      destruct (String.eqb_spec k k') as [->|Hne].
      * split; [by intros [= ->]; left|].
        intros [[= ->]|Hin]; [done|]. destruct Hget. by eapply Hkey.
      * split; [done|]. intros [[= -> ->]|Hin]; [done|].
        destruct Hget. by eapply Hkey.
Qed.

Lemma dict_get_Permutation (k : string) (members members' : list (string * json)) :
  members ≡ₚ members' → NoDup members.*1 →
  dict_get k members = dict_get k members'.
Proof.
  intros Hperm Hdup.
  assert (NoDup members'.*1) as Hdup' by by rewrite <- Hperm.
  apply option_eq. intros v.
  rewrite !dict_get_Some by done. by rewrite Hperm.
Qed.

Lemma forallb_Permutation {A} (f : A → bool) (l l' : list A) :
  l ≡ₚ l' → forallb f l = forallb f l'.
Proof.
  intros Hperm. induction Hperm as [|x l l' _ IH|x y l|l l' l'' _ IH _ IH'];
    simpl; [done|by rewrite IH| |congruence].
  by destruct (f x), (f y).
Qed.

(** X3. The order in which the four keys of a stored entry are written
    does not matter: two objects with the same members in any order,
    no key written twice, give the same record or the same failure. *)
Theorem record_of_item_key_order (members members' : list (string * json)) :
  members ≡ₚ members' → NoDup members.*1 →
  Record.of_kwargs (JObj members) = Record.of_kwargs (JObj members').
Proof.
  intros Hperm Hdup. unfold Record.of_kwargs.
  rewrite (forallb_Permutation _ members members') by done.
  by rewrite !(dict_get_Permutation _ members members').
Qed.

Lemma record_of_item_key_order_witness :
  Record.of_kwargs
    (JObj [("description", JStr "Groceries"); ("price", JInt 1500);
           ("category", JStr Expense); ("date", JStr "2024-05-03")])
    = Return Sample.groceries.
Proof.
  rewrite <- (of_kwargs_dict Sample.groceries). symmetry.
  apply record_of_item_key_order.
  - exact (Permutation_rev
             [("date", JStr "2024-05-03"); ("category", JStr Expense);
              ("price", JInt 1500); ("description", JStr "Groceries")]).
  - apply (bool_decide_unpack _). by vm_compute.
Defined.

End decoding.

(** ** Mutations and the disk *)

Section mutations.

Lemma init_saved (self : MyCash.t) (disk : gmap string file) (username : string) :
  filepath self = username +:+ ".json" →
  init username (save_data self disk) = (self, Return tt).
Proof.
  intros Hpath. unfold init. rewrite (load_saved self) by done.
  simpl. f_equal. destruct self. simpl in *. by subst.
Qed.

Lemma edit_record_returns (self self' : MyCash.t) (disk disk' : gmap string file)
    (i : Z) date category price description :
  edit_record self disk i date category price description
    = (self', disk', Return tt) →
  ∃ (k : nat) (old : Record.t),
    Py.index (records self) i = Some k ∧
    records self !! k = Some old ∧
    self' = set_records
              (<[k := assigned date category price description old]> (records self))
              self ∧
    disk' = save_data self' disk.
Proof.
  unfold edit_record, Py.getitem.
  destruct (Py.index (records self) i) as [k|] eqn:Hk; [|done].
  destruct (records self !! k) as [old|] eqn:Hold; [|done].
  intros [= <- <-]. by exists k, old.
Qed.

(** X4. Every mutation is written through: after [add_record], and
    after an [edit_record] that returns, a fresh store constructed for
    the same user holds exactly the records of the mutated store. *)
Theorem mutations_are_persisted (self : MyCash.t) (disk : gmap string file)
    (username : string) :
  filepath self = username +:+ ".json" →
  (∀ date category price description,
     ∃ self' disk',
       add_record self disk date category price description
         = (self', disk', Return tt) ∧
       init username disk' = (self', Return tt)) ∧
  (∀ i date category price description self' disk',
     edit_record self disk i date category price description
       = (self', disk', Return tt) →
     init username disk' = (self', Return tt)).
Proof.
  intros Hpath. split.
  - intros date category price description. eexists. eexists.
    split; [reflexivity|]. by apply init_saved.
  - intros i date category price description self' disk'
      (k & old & _ & _ & -> & ->)%edit_record_returns.
    by apply init_saved.
Qed.

Lemma mutations_are_persisted_witness :
  init "user"
    (add_record Sample.ledger ∅ "2024-05-04" Income 10 "Tip").1.2
    = ((add_record Sample.ledger ∅ "2024-05-04" Income 10 "Tip").1.1, Return tt) ∧
  init "user"
    (edit_record Sample.ledger ∅ (-1) None None (Some 7) None).1.2
    = ((edit_record Sample.ledger ∅ (-1) None None (Some 7) None).1.1, Return tt).
Proof.
  destruct (mutations_are_persisted Sample.ledger ∅ "user") as [Hadd Hedit];
    [reflexivity|].
  split.
  - destruct (Hadd "2024-05-04" Income 10 "Tip") as (self' & disk' & Hrun & Hinit).
    by rewrite Hrun.
  - by apply (Hedit (-1) None None (Some 7) None).
Defined.

(** X5. A negative index is another name for a position counted from
    the end: for [-len(records) <= i < 0], editing at [i] and editing
    at [len(records) + i] do the same to the store and the disk. *)
Theorem edit_record_from_the_end (self : MyCash.t) (disk : gmap string file)
    (i : Z) date category price description :
  - Z.of_nat (length (records self)) ≤ i < 0 →
  edit_record self disk i date category price description
    = edit_record self disk (Z.of_nat (length (records self)) + i)
        date category price description.
Proof.
  intros Hi. unfold edit_record, Py.getitem.
  rewrite index_back by done. rewrite index_front by lia. done.
Qed.

Lemma edit_record_from_the_end_witness :
  edit_record Sample.ledger ∅ (-1) None None (Some 7) None
    = edit_record Sample.ledger ∅ 1 None None (Some 7) None.
Proof.
  apply (edit_record_from_the_end Sample.ledger ∅ (-1)). simpl. lia.
Defined.

Lemma assigned_twice date category price description (old : Record.t) :
  assigned date category price description
    (assigned date category price description old)
  = assigned date category price description old.
Proof.
  unfold assigned, assign.
  destruct date as [d|], category as [c|], price as [p|], description as [s|];
    try destruct (truth d); try destruct (truth c);
    try destruct (truth p); try destruct (truth s);
    by destruct old.
Qed.

(** X6. Editing is idempotent: an [edit_record] that returned, called
    again with the same arguments, returns and changes neither the
    store nor the disk. *)
Theorem edit_record_twice (self self' : MyCash.t) (disk disk' : gmap string file)
    (i : Z) date category price description :
  edit_record self disk i date category price description
    = (self', disk', Return tt) →
  edit_record self' disk' i date category price description
    = (self', disk', Return tt).
Proof.
  intros (k & old & Hk & Hold & -> & ->)%edit_record_returns.
  pose proof (index_lt _ _ _ Hk) as Hlt.
  set (new := assigned date category price description old).
  set (self' := set_records (<[k := new]> (records self)) self).
  destruct (edit_record_at self' (save_data self' disk) i k
              date category price description) as (old' & Hold' & ->).
  { unfold Py.index in *. simpl. by rewrite length_insert. }
  simpl in Hold'. rewrite list_lookup_insert_eq in Hold' by done.
  injection Hold' as <-. subst new. rewrite assigned_twice. simpl.
  rewrite list_insert_insert_eq.
  unfold save_data. simpl. by rewrite insert_insert_eq.
Qed.

Lemma edit_record_twice_witness :
  ∃ self' disk',
    edit_record Sample.ledger ∅ 0 (Some "2024-06-01") None (Some 5) None
      = (self', disk', Return tt) ∧
    edit_record self' disk' 0 (Some "2024-06-01") None (Some 5) None
      = (self', disk', Return tt).
Proof.
  eexists. eexists. split; [reflexivity|].
  by apply (edit_record_twice Sample.ledger _ ∅).
Defined.

(** X7. With four true-valued arguments [edit_record] replaces the
    record: record [i] becomes the record built from the arguments,
    as the unit test of [edit_record] asserts for one case. *)
Theorem edit_record_replaces (self : MyCash.t) (disk : gmap string file)
    (i : Z) (date category : string) (price : Z) (description : string) :
  0 ≤ i < Z.of_nat (length (records self)) →
  date ≠ "" → category ≠ "" → price ≠ 0 → description ≠ "" →
  ∃ self' : MyCash.t,
    edit_record self disk i (Some date) (Some category) (Some price)
      (Some description)
      = (self', save_data self' disk, Return tt) ∧
    records self'
      = <[Z.to_nat i := Record.new date category price description]> (records self) ∧
    records self' !! Z.to_nat i = Some (Record.new date category price description).
Proof.
  intros Hi Hd Hc Hp Hs.
  destruct (edit_record_at self disk i (Z.to_nat i)
              (Some date) (Some category) (Some price) (Some description))
    as (old & Hold & Hrun); [by apply index_front|].
  assert (assigned (Some date) (Some category) (Some price) (Some description) old
          = Record.new date category price description) as Hnew.
  { unfold assigned, assign, truth, str_truthy, int_truthy.
    apply String.eqb_neq in Hd, Hc, Hs. apply Z.eqb_neq in Hp.
    by rewrite Hd, Hc, Hp, Hs. }
  rewrite Hnew in Hrun. eexists. split; [exact Hrun|]. simpl.
  split; [done|]. apply list_lookup_insert_eq. lia.
Qed.

Lemma edit_record_replaces_witness :
  ∃ self' : MyCash.t,
    edit_record (MyCash.mk "test_user.json" [Sample.salary]) ∅ 0
      (Some "2024-05-03") (Some Expense) (Some 1500) (Some "Groceries")
      = (self', save_data self' ∅, Return tt) ∧
    records self' = [Sample.groceries].
Proof.
  destruct (edit_record_replaces (MyCash.mk "test_user.json" [Sample.salary]) ∅ 0
              "2024-05-03" Expense 1500 "Groceries")
    as (self' & Hrun & Hrecords & _); [simpl; lia|done..|].
  by exists self'.
Defined.

End mutations.

(** ** Balance along mutations *)

Section balance_steps.

Import Calls.

Lemma balance_totals (self : MyCash.t) :
  display_balance self =
    (total Income (records self) - total Expense (records self),
     total Income (records self), total Expense (records self)).
Proof. unfold display_balance. by rewrite !sum_of_category. Qed.

Lemma total_app (c : string) (rs rs' : list Record.t) :
  total c (rs ++ rs') = total c rs + total c rs'.
Proof. induction rs as [|r rs IH]; simpl; [done|]. rewrite IH. lia. Qed.

Lemma total_insert (c : string) (rs : list Record.t) (k : nat)
    (old new : Record.t) :
  rs !! k = Some old →
  total c (<[k := new]> rs) = total c rs - share c old + share c new.
Proof.
  revert k. induction rs as [|r rs IH]; intros [|k] Hk; simplify_eq/=.
  - unfold share. lia.
  - rewrite (IH k) by done. lia.
Qed.

Lemma record_eta (r : Record.t) :
  Record.new (Record.date r) (Record.category r) (Record.price r)
    (Record.description r) = r.
Proof. by destruct r. Qed.

(** X8. Adding a record moves the balance by its amount: an Income
    record raises income and balance by the amount, an Expense record
    raises expense and lowers balance by the amount, and a record of
    any other category changes none of the three. *)
Theorem display_balance_after_add (self : MyCash.t) (disk : gmap string file)
    (date category : string) (price : Z) (description : string) :
  ∃ self' : MyCash.t,
    add_record self disk date category price description
      = (self', save_data self' disk, Return tt) ∧
    let '(balance, income, expense) := display_balance self in
    display_balance self' =
      if decide (category = Income) then (balance + price, income + price, expense)
      else if decide (category = Expense)
           then (balance - price, income, expense + price)
           else (balance, income, expense).
Proof.
  eexists. split; [reflexivity|].
  rewrite !balance_totals. simpl. rewrite !total_app. simpl.
  repeat case_decide; simplify_eq; repeat apply (f_equal2 pair); lia.
Qed.

(** X9. Editing a record moves each total by what the new record adds
    to it minus what the old record added; an edit that applies no
    category and no amount (only date or description) leaves the
    balance, the income and the expense as they were. *)
Theorem display_balance_after_edit (self self' : MyCash.t)
    (disk disk' : gmap string file) (i : Z) date category price description :
  edit_record self disk i date category price description
    = (self', disk', Return tt) →
  ∃ (k : nat) (old new : Record.t),
    records self !! k = Some old ∧
    records self' !! k = Some new ∧
    (let '(balance, income, expense) := display_balance self in
     display_balance self' =
       (balance - (share Income old - share Expense old)
                + (share Income new - share Expense new),
        income - share Income old + share Income new,
        expense - share Expense old + share Expense new)) ∧
    (applied category = None → applied price = None →
     display_balance self' = display_balance self).
Proof.
  intros (k & old & Hk & Hold & -> & ->)%edit_record_returns.
  pose proof (index_lt _ _ _ Hk) as Hlt.
  set (new := assigned date category price description old).
  exists k, old, new. split; [done|].
  split; [by apply list_lookup_insert_eq|].
  assert (∀ c, total c (<[k := new]> (records self))
               = total c (records self) - share c old + share c new) as Htotal.
  { intros c. by apply total_insert. }
  split.
  - rewrite !balance_totals. simpl. rewrite !Htotal. repeat apply (f_equal2 pair); lia.
  - intros Hc Hp. rewrite !balance_totals. simpl. rewrite !Htotal.
    destruct (assigned_fields date category price description old)
      as (_ & Hcat & Hprice & _).
    unfold edited in Hcat, Hprice. rewrite Hc in Hcat. rewrite Hp in Hprice.
    fold new in Hcat, Hprice. unfold share. rewrite Hcat, Hprice.
    repeat apply (f_equal2 pair); lia.
Qed.

Lemma display_balance_after_edit_witness :
  display_balance
    (edit_record Sample.ledger ∅ 0 (Some "2024-06-01") None None (Some "Pay")).1.1
  = display_balance Sample.ledger.
Proof.
  destruct (display_balance_after_edit Sample.ledger
              (edit_record Sample.ledger ∅ 0 (Some "2024-06-01") None None
                 (Some "Pay")).1.1
              ∅
              (edit_record Sample.ledger ∅ 0 (Some "2024-06-01") None None
                 (Some "Pay")).1.2
              0 (Some "2024-06-01") None None (Some "Pay"))
    as (k & old & new & _ & _ & _ & Hsame); [reflexivity|].
  by apply Hsame.
Defined.

Lemma add_all_from (entries : list Record.t) (self : MyCash.t)
    (disk : gmap string file) :
  add_all entries self disk
    = (set_records (records self ++ entries) self,
       match entries with
       | [] => disk
       | _ => save_data (set_records (records self ++ entries) self) disk
       end,
       Return tt).
Proof.
  revert self disk. induction entries as [|r entries IH]; intros self disk.
  - simpl. by rewrite app_nil_r, set_records_same.
  - simpl. rewrite record_eta, IH. simpl. rewrite <- app_assoc. simpl.
    f_equal. f_equal. destruct entries; [done|].
    unfold save_data. simpl. by rewrite insert_insert_eq.
Qed.

(** X10. When each call of a sequence of adds returned, the entries
    were appended in order: the length grew by one per call, the
    balance, income and expense grew by the totals of the entries, and
    the last save left the whole sequence in the file. *)
Theorem add_all_appends (entries : list Record.t) (self self' : MyCash.t)
    (disk disk' : gmap string file) :
  add_all entries self disk = (self', disk', Return tt) →
  records self' = records self ++ entries ∧
  length (records self') = (length (records self) + length entries)%nat ∧
  (let '(balance, income, expense) := display_balance self in
   display_balance self' =
     (balance + (total Income entries - total Expense entries),
      income + total Income entries,
      expense + total Expense entries)) ∧
  disk' = match entries with
          | [] => disk
          | _ => save_data self' disk
          end.
Proof.
  rewrite add_all_from. intros [= <- <-]. simpl.
  split; [done|]. split; [apply length_app|]. split; [|done].
  rewrite !balance_totals. simpl.
  rewrite !total_app, ?sum_of_category.
  repeat apply (f_equal2 pair); lia.
Qed.

Lemma add_all_appends_witness :
  ∃ (self' : MyCash.t) (disk' : gmap string file),
    add_all [Sample.salary; Sample.groceries] (MyCash.mk "user.json" []) ∅
      = (self', disk', Return tt) ∧
    records self' = [Sample.salary; Sample.groceries] ∧
    display_balance self' = (28500, 30000, 1500).
Proof.
  eexists. eexists. split; [reflexivity|].
  destruct (add_all_appends [Sample.salary; Sample.groceries]
              (MyCash.mk "user.json" []) _ ∅ _ eq_refl)
    as (Hrecords & _ & Hbalance & _).
  split; [exact Hrecords|exact Hbalance].
Defined.

End balance_steps.

(** ** Searching, continued *)

Section search_more.

Lemma elem_of_search (self : MyCash.t) category date price (r : Record.t) :
  r ∈ search_records self category date price ↔
  r ∈ records self ∧ matches (applied category) (applied date) (applied price) r.
Proof. rewrite search_records_filter, list_elem_of_filter. tauto. Qed.

(** X11. Criteria combine as a conjunction: a record is returned for
    several criteria exactly when it is returned for each of them
    alone, and the result for several criteria is a subsequence of the
    result for the category alone. *)
Theorem search_records_conjunction (self : MyCash.t)
    (category date : option string) (price : option Z) :
  (∀ r, r ∈ search_records self category date price ↔
        r ∈ search_records self category None None ∧
        r ∈ search_records self None date None ∧
        r ∈ search_records self None None price) ∧
  search_records self category date price
    `sublist_of` search_records self category None None.
Proof.
  split.
  - intros r. rewrite !elem_of_search. unfold matches. simpl. tauto.
  - rewrite !search_records_filter.
    rewrite (list_filter_iff
               (matches (applied category) (applied date) (applied price))
               (λ r, matches None (applied date) (applied price) r ∧
                     matches (applied category) None None r)).
    + rewrite <- list_filter_filter. apply sublist_filter.
    + intros r. unfold matches. simpl. tauto.
Qed.

Lemma matches_own_fields (r : Record.t) :
  matches (applied (Some (Record.category r))) (applied (Some (Record.date r)))
    (applied (Some (Record.price r))) r.
Proof.
  unfold matches, applied. rewrite !truth_Some.
  repeat split.
  - by destruct (truth (Record.category r)).
  - destruct (truth (Record.date r)); [|done]. simpl. by unfold date_matches.
  - by destruct (truth (Record.price r)).
Qed.

(** X12. What is stored can be found: every record of the ledger is
    among the results of the search for its own category, date and
    amount, and so is a record right after it was added. *)
Theorem stored_record_is_found (self : MyCash.t) :
  (∀ r : Record.t,
     r ∈ records self →
     r ∈ search_records self (Some (Record.category r)) (Some (Record.date r))
           (Some (Record.price r))) ∧
  (∀ disk date category price description,
     Record.new date category price description ∈
       search_records (add_record self disk date category price description).1.1
         (Some category) (Some date) (Some price)).
Proof.
  split.
  - intros r Hr. apply elem_of_search. split; [done|]. apply matches_own_fields.
  - intros disk date category price description. apply elem_of_search. split.
    + simpl. apply elem_of_app. right. by apply list_elem_of_singleton.
    + apply (matches_own_fields (Record.new date category price description)).
Qed.

Lemma stored_record_is_found_witness :
  Sample.groceries ∈
    search_records Sample.ledger (Some Expense) (Some "2024-05-03") (Some 1500).
Proof.
  destruct (stored_record_is_found Sample.ledger) as [Hfound _].
  apply (Hfound Sample.groceries). by repeat constructor.
Defined.

End search_more.

(** ** The user name *)

Import Cli CliSpec.

Section username.

Context (disk : gmap string file).

Lemma exists_true (path : string) :
  exists_ path disk = true ↔ is_Some (disk !! path).
Proof. unfold exists_. apply bool_decide_eq_true. Qed.

Lemma exists_false (path : string) :
  exists_ path disk = false ↔ disk !! path = None.
Proof.
  unfold exists_. rewrite bool_decide_eq_false.
  by rewrite <- eq_None_not_Some.
Qed.

Lemma get_username_sound (stdin : list string) :
  (∀ username rest,
     get_username disk stdin = Got username rest →
     ∃ pairs, Forall (declined disk) pairs ∧
       ((is_Some (disk !! (username +:+ ".json")) ∧
         stdin = lines pairs ++ username :: rest) ∨
        (disk !! (username +:+ ".json") = None ∧
         stdin = lines pairs ++ username :: "1" :: rest))) ∧
  (∀ line username rest,
     get_username disk (line :: stdin) = Got username rest →
     ∃ pairs, Forall (declined disk) pairs ∧
       ((is_Some (disk !! (username +:+ ".json")) ∧
         line :: stdin = lines pairs ++ username :: rest) ∨
        (disk !! (username +:+ ".json") = None ∧
         line :: stdin = lines pairs ++ username :: "1" :: rest))).
Proof.
  induction stdin as [|choice stdin [IH IH']].
  - split; [done|]. intros line username rest. simpl.
    destruct (exists_ (line +:+ ".json") disk) eqn:Hfile; [|done].
    intros [= <- <-]. exists []. split; [done|]. left.
    split; [by apply exists_true|done].
  - split; [by apply IH'|].
    intros line username rest. simpl.
    destruct (exists_ (line +:+ ".json") disk) eqn:Hfile.
    + intros [= <- <-]. exists []. split; [done|]. left.
      split; [by apply exists_true|done].
    + apply exists_false in Hfile.
      destruct (String.eqb_spec choice "1") as [->|Hchoice].
      * intros [= <- <-]. exists []. split; [done|]. by right.
      * intros (pairs & Hpairs & Hcase)%IH.
        exists ((line, choice) :: pairs). split; [by constructor|].
        destruct Hcase as [[Hfound ->]|[Hnew ->]]; [by left|by right].
Qed.

Lemma get_username_declined (pairs : list (string * string)) (stdin : list string) :
  Forall (declined disk) pairs →
  get_username disk (lines pairs ++ stdin) = get_username disk stdin.
Proof.
  induction 1 as [|[name choice] pairs [Hfile Hchoice] _ IH]; [done|].
  simpl in *. apply exists_false in Hfile. rewrite Hfile.
  apply String.eqb_neq in Hchoice. by rewrite Hchoice.
Qed.

End username.

(** X13. [get_username] returns a name exactly when the input is a
    run of declined names (no file, and an answer other than ["1"])
    followed by the name and, when the name has no file, the answer
    ["1"]; the lines after that are left to be read.  So the name that
    is returned has a file or was confirmed as a new user. *)
Theorem get_username_returns (disk : gmap string file) (stdin : list string)
    (username : string) (rest : list string) :
  get_username disk stdin = Got username rest ↔
  ∃ pairs, Forall (declined disk) pairs ∧
    ((is_Some (disk !! (username +:+ ".json")) ∧
      stdin = lines pairs ++ username :: rest) ∨
     (disk !! (username +:+ ".json") = None ∧
      stdin = lines pairs ++ username :: "1" :: rest)).
Proof.
  split; [apply get_username_sound|].
  intros (pairs & Hpairs & [[Hfile ->]|[Hfile ->]]);
    rewrite get_username_declined by done; simpl.
  - apply exists_true in Hfile. by rewrite Hfile.
  - apply exists_false in Hfile. by rewrite Hfile.
Qed.

(** ** The menu loop *)

Section menu_loop.

Context (int : string → option Z).
Context (strptime : string → string → bool).
Context (today : nat → string).

#[local] Arguments call : simpl never.

Ltac menu_cases :=
  repeat match goal with
         | |- within _ _ _ _ (input _ _) => unfold input at 1; simpl
         | |- within _ _ _ _ (if ?b then _ else _) => destruct b eqn:?
         | |- within _ _ _ _ (match ?x with _ => _ end) => destruct x eqn:?
         end.

Ltac menu_leaf :=
  match goal with
  | |- within _ _ _ _ (Next _) => split; [apply step_none|simpl; lia]
  | |- within _ _ _ _ (Stop _ _) => simpl; split_and?; auto with lia
  end.

Lemma call_add_within (self : MyCash.t) (d : gmap string file)
    (inp : list string) (k n : nat) date category price description :
  category = Income ∨ category = Expense → 0 ≤ price →
  (length inp ≤ n)%nat →
  within strptime self d n
    (call (add_record self d date category price description)
       (World self d inp k)).
Proof.
  intros Hc Hp Hn. split; [|done].
  by apply (step_add strptime self d date category price description).
Qed.

Lemma call_edit_within (self : MyCash.t) (d : gmap string file)
    (inp : list string) (k n : nat) i date category price description :
  0 ≤ i < Z.of_nat (length (records self)) →
  (∀ v, date = Some v → v ≠ "" ∧ strptime v "%Y-%m-%d" = true) →
  category = None ∨ category = Some Income ∨ category = Some Expense →
  (∀ p, price = Some p → 0 < p) →
  (length inp ≤ n)%nat →
  within strptime self d n
    (call (edit_record self d i date category price description)
       (World self d inp k)).
Proof.
  intros Hi Hd Hc Hp Hn.
  pose proof (step_edit strptime self d i date category price description
                Hi Hd Hc Hp) as Hstep.
  destruct (edit_record_at self d i (Z.to_nat i)
              date category price description) as (old & _ & Hrun);
    [by apply index_front|].
  rewrite Hrun in *. by split.
Qed.

Lemma add_menu_within (w : world) :
  within strptime (app w) (disk w) (length (stdin w)) (add_menu int today w).
Proof.
  destruct w as [self d inp k]. unfold add_menu. simpl. menu_cases;
    try menu_leaf; simplify_eq.
  all: apply call_add_within; [|lia|simpl; lia].
  all: match goal with
       | |- context [if ?b then _ else _] => destruct b; auto
       end.
Qed.

Lemma checked_date (date format : string) :
  truth date && negb (strptime date format) = false →
  ∀ v, (if truth date then Some date else None) = Some v →
       v ≠ "" ∧ strptime v format = true.
Proof.
  intros Hcheck v. destruct (truth date) eqn:Ht; [|done].
  intros [= <-]. simpl in Hcheck. apply negb_false_iff in Hcheck.
  split; [|done]. intros ->. done.
Qed.

Lemma checked_category (choice : string) :
  let category :=
    if String.eqb choice "1" then Some Income
    else if String.eqb choice "2" then Some Expense else None in
  category = None ∨ category = Some Income ∨ category = Some Expense.
Proof. simpl. repeat case_match; auto. Qed.

Lemma checked_price (price : Z) :
  (price <? 0) = false →
  ∀ p, (if truth (Some price) then Some price else None) = Some p → 0 < p.
Proof.
  intros Hprice%Z.ltb_ge p. rewrite truth_Some.
  unfold truth, int_truthy. destruct (Z.eqb_spec price 0); [done|].
  intros [= <-]. lia.
Qed.

Lemma edit_menu_within (w : world) :
  within strptime (app w) (disk w) (length (stdin w)) (edit_menu int strptime w).
Proof.
  destruct w as [self d inp k]. unfold edit_menu. simpl. menu_cases;
    try menu_leaf; simplify_eq.
  all: match goal with
       | H : _ || _ = false |- _ =>
           apply orb_false_iff in H as [?%Z.ltb_ge ?%Z.leb_gt]
       end.
  all: apply call_edit_within;
    [lia|by apply checked_date|apply checked_category| |simpl; lia].
  - by apply checked_price.
  - done.
Qed.

Lemma search_menu_within (w : world) :
  within strptime (app w) (disk w) (length (stdin w)) (search_menu int strptime w).
Proof.
  destruct w as [self d inp k]. unfold search_menu. simpl.
  menu_cases; menu_leaf.
Qed.

Lemma within_weaken (self : MyCash.t) (d : gmap string file) (n m : nat)
    (f : flow) :
  (n ≤ m)%nat → within strptime self d n f → within strptime self d m f.
Proof. intros Hnm. destruct f; simpl; intuition lia. Qed.

Lemma iteration_within (w : world) :
  within strptime (app w) (disk w) (pred (length (stdin w)))
    (iteration int strptime today w).
Proof.
  unfold iteration, input.
  destruct w as [self d [|choice inp] k]; simpl; [by auto|].
  repeat match goal with
         | |- within _ _ _ _ (if ?b then _ else _) => destruct b eqn:?
         end; try menu_leaf.
  - apply (add_menu_within (World self d inp k)).
  - apply (edit_menu_within (World self d inp k)).
  - apply (search_menu_within (World self d inp k)).
Qed.

Lemma iteration_next (w w' : world) :
  iteration int strptime today w = Next w' →
  menu_step strptime (app w) (disk w) (app w') (disk w') ∧
  (length (stdin w') < length (stdin w))%nat.
Proof.
  intros Hnext. pose proof (iteration_within w) as Hin.
  rewrite Hnext in Hin. destruct Hin as [Hstep Hlen]. split; [done|].
  destruct (stdin w) eqn:Hinp; [|simpl in *; lia].
  unfold iteration, input in Hnext. by rewrite Hinp in Hnext.
Qed.

Lemma iteration_stop (w w' : world) (e : ending) :
  iteration int strptime today w = Stop e w' →
  (e = Exit ∨ e = EndOfInput) ∧ app w' = app w ∧ disk w' = disk w ∧
  (length (stdin w') ≤ length (stdin w))%nat.
Proof.
  intros Hstop. pose proof (iteration_within w) as Hin.
  rewrite Hstop in Hin. simpl in Hin. intuition lia.
Qed.

Lemma run_loop_steps (fuel : nat) (w : world) :
  (length (stdin w) < fuel)%nat →
  ∃ e w',
    run_loop int strptime today fuel w = (e, w') ∧
    (e = Exit ∨ e = EndOfInput) ∧
    menu_steps strptime (app w) (disk w) (app w') (disk w') ∧
    (length (stdin w') ≤ length (stdin w))%nat.
Proof.
  revert w. induction fuel as [|fuel IH]; intros w Hfuel; [lia|]. simpl.
  destruct (iteration int strptime today w) as [w1|e w1] eqn:Hiter.
  - apply iteration_next in Hiter as [Hstep Hlen].
    destruct (IH w1) as (e & w' & Hrun & He & Hsteps & Hlen'); [lia|].
    exists e, w'. split; [done|]. split; [done|].
    split; [by eapply steps_more|lia].
  - apply iteration_stop in Hiter as (He & Happ & Hdisk & Hlen).
    exists e, w1. split; [done|]. split; [done|].
    rewrite Happ, Hdisk. split; [apply steps_done|done].
Qed.

Lemma run_loop_fuel (fuel fuel' : nat) (w : world) :
  (length (stdin w) < fuel)%nat → (length (stdin w) < fuel')%nat →
  run_loop int strptime today fuel w = run_loop int strptime today fuel' w.
Proof.
  revert fuel' w. induction fuel as [|fuel IH]; intros [|fuel'] w Hf Hf';
    [lia..|]. simpl.
  destruct (iteration int strptime today w) as [w1|e w1] eqn:Hiter; [|done].
  apply iteration_next in Hiter as [_ Hlen]. apply IH; lia.
Qed.

End menu_loop.

(** ** What a session keeps *)

Section session.

Context (int : string → option Z).
Context (strptime : string → string → bool).
Context (today : nat → string).

Lemma applied_Some {A} `{Truthy A} (arg : option A) (v : A) :
  applied arg = Some v → arg = Some v.
Proof. unfold applied. by destruct (truth arg). Qed.

Lemma menu_step_cases (s s' : MyCash.t) (d d' : gmap string file) :
  menu_step strptime s d s' d' →
  (s' = s ∧ d' = d) ∨
  ∃ rs, s' = set_records rs s ∧ d' = save_data s' d ∧
    ((∃ r, rs = records s ++ [r] ∧ 0 ≤ Record.price r ∧
           (Record.category r = Income ∨ Record.category r = Expense)) ∨
     (∃ k old new,
        records s !! k = Some old ∧ rs = <[k := new]> (records s) ∧
        (0 ≤ Record.price old → 0 ≤ Record.price new) ∧
        (Record.category old = Income ∨ Record.category old = Expense →
         Record.category new = Income ∨ Record.category new = Expense))).
Proof.
  intros [|date category price description Hc Hp
          |i date category price description Hi Hd Hc Hp].
  - by left.
  - right. eexists. split; [done|]. split; [done|]. left.
    eexists. split; [done|]. by split.
  - right.
    destruct (edit_record_at s d i (Z.to_nat i)
                date category price description) as (old & Hold & ->);
      [by apply index_front|].
    eexists. split; [done|]. split; [done|]. right.
    exists (Z.to_nat i), old. eexists. split; [done|]. split; [done|].
    destruct (assigned_fields date category price description old)
      as (_ & Hcat & Hprice & _).
    unfold edited in Hcat, Hprice. split.
    + destruct (applied price) as [p|] eqn:Happ; [|lia].
      apply applied_Some, Hp in Happ. lia.
    + destruct (applied category) as [c|] eqn:Happ; [|congruence].
      apply applied_Some in Happ. rewrite Hcat. intros _.
      destruct Hc as [Hc|[Hc|Hc]]; rewrite Hc in Happ; simplify_eq; auto.
Qed.

Lemma menu_steps_invariant (I : MyCash.t → gmap string file → Prop)
    (s s' : MyCash.t) (d d' : gmap string file) :
  (∀ s d s' d', menu_step strptime s d s' d' → I s d → I s' d') →
  menu_steps strptime s d s' d' → I s d → I s' d'.
Proof. intros Hstep. induction 1; eauto. Qed.

Lemma run_steps (w : world) :
  ∃ e w',
    run int strptime today w = (e, w') ∧
    (e = Exit ∨ e = EndOfInput) ∧
    menu_steps strptime (app w) (disk w) (app w') (disk w') ∧
    (length (stdin w') ≤ length (stdin w))%nat.
Proof. apply run_loop_steps. lia. Qed.

(** X14. The menu lets no [IndexError] through: the index typed for
    an edit is checked against the bounds of the ledger before
    [edit_record] is called.  The fuel of [run] is enough: it never
    runs out, and more fuel gives the same result.  When the loop ends
    by the choice 5 or at the end of the input, it has read lines only,
    removed no record and left the path of the ledger as it was. *)
Theorem run_raises_no_index_error (w w' : world) (e : ending) :
  run int strptime today w = (e, w') →
  e ≠ Uncaught IndexError ∧
  e ≠ Unfinished ∧
  (∀ fuel, (length (stdin w) < fuel)%nat →
           run_loop int strptime today fuel w = (e, w')) ∧
  (e = Exit ∨ e = EndOfInput →
   (length (stdin w') ≤ length (stdin w))%nat ∧
   filepath (app w') = filepath (app w) ∧
   (length (records (app w)) ≤ length (records (app w')))%nat).
Proof.
  intros Hrun.
  destruct (run_steps w) as (e1 & w1 & Hrun1 & He & Hsteps & Hlen).
  rewrite Hrun in Hrun1. injection Hrun1 as <- <-.
  split; [by destruct He as [-> | ->]|].
  split; [by destruct He as [-> | ->]|]. split.
  - intros fuel Hfuel. rewrite <- Hrun. unfold run.
    apply run_loop_fuel; lia.
  - intros _. split; [done|].
    apply (menu_steps_invariant
             (λ s _, filepath s = filepath (app w) ∧
                     (length (records (app w)) ≤ length (records s))%nat)
             _ _ _ _) in Hsteps; [done| |done].
    intros s d s1 d1 Hstep [Hpath Hlength].
    apply menu_step_cases in Hstep
      as [[-> ->]|(rs & -> & _ & [(r & -> & _)|(k & old & new & _ & -> & _)])];
      simpl; [done|split; [done|]..].
    + rewrite length_app. simpl. lia.
    + by rewrite length_insert.
Qed.

(** X15. The menu keeps the ledger tidy: when every amount is at least
    0 and every category is one of the two literals before [run], the
    same holds after it, whatever lines are typed. *)
Theorem run_keeps_tidy (w : world) :
  tidy (records (app w)) →
  tidy (records (app (run int strptime today w).2)).
Proof.
  intros Htidy.
  destruct (run_steps w) as (e & w' & -> & _ & Hsteps & _). simpl.
  apply (menu_steps_invariant (λ s _, tidy (records s)) _ _ _ _) in Hsteps;
    [done| |done].
  clear Htidy Hsteps. intros s d s1 d1 Hstep Htidy. unfold tidy in *.
  apply menu_step_cases in Hstep
    as [[-> ->]|(rs & -> & _ &
                 [(r & -> & Hp & Hc)|(k & old & new & Hold & -> & Hp & Hc)])];
    simpl; [done| |].
  - apply Forall_app. split; [done|]. by apply Forall_singleton.
  - apply Forall_insert; [done|].
    apply (Forall_lookup_1 _ _ _ _ Htidy) in Hold as [Hold_p Hold_c].
    split; auto.
Qed.

Lemma run_other_paths (w : world) (path : string) :
  path ≠ filepath (app w) →
  disk (run int strptime today w).2 !! path = disk w !! path.
Proof.
  intros Hpath.
  destruct (run_steps w) as (e & w' & -> & _ & Hsteps & _). simpl.
  apply (menu_steps_invariant
           (λ s d, filepath s = filepath (app w) ∧ d !! path = disk w !! path)
           _ _ _ _) in Hsteps; [by destruct Hsteps|clear Hsteps|done].
  intros s d s1 d1 Hstep [Hs Hd].
  apply menu_step_cases in Hstep as [[-> ->]|(rs & -> & -> & _)]; [done|].
  split; [done|]. unfold save_data. simpl.
  rewrite lookup_insert_ne; [done|congruence].
Qed.

(** X16. The menu writes one file only: after [run] every other path
    of the disk holds what it held before.  Its own file is either
    untouched, together with the store, or it holds exactly the records
    the store ends with. *)
Theorem run_writes_own_file (w : world) :
  (∀ path, path ≠ filepath (app w) →
           disk (run int strptime today w).2 !! path = disk w !! path) ∧
  ((app (run int strptime today w).2 = app w ∧
    disk (run int strptime today w).2 = disk w) ∨
   disk (run int strptime today w).2 !! filepath (app w)
     = Some (Json (JArr (map Record.dict
                           (records (app (run int strptime today w).2)))))).
Proof.
  split; [intros path; apply run_other_paths|].
  destruct (run_steps w) as (e & w' & -> & _ & Hsteps & _). simpl.
  apply (menu_steps_invariant
           (λ s d, filepath s = filepath (app w) ∧
                   ((s = app w ∧ d = disk w) ∨
                    d !! filepath (app w)
                      = Some (Json (JArr (map Record.dict (records s))))))
           _ _ _ _) in Hsteps; [by destruct Hsteps|clear Hsteps|by split; [|left]].
  intros s d s1 d1 Hstep [Hs Hd].
  apply menu_step_cases in Hstep as [[-> ->]|(rs & -> & -> & _)]; [done|].
  split; [done|]. right. unfold save_data. simpl.
  rewrite Hs. apply lookup_insert_eq.
Qed.

Lemma load_loop_filepath (items : list json) (self : MyCash.t) :
  filepath (load_loop items self).1 = filepath self.
Proof.
  revert self. induction items as [|item items IH]; intros self; simpl; [done|].
  destruct (Record.of_kwargs item); [|done..]. by rewrite IH.
Qed.

Lemma load_data_filepath (self : MyCash.t) (d : gmap string file) :
  filepath (load_data self d).1 = filepath self.
Proof.
  unfold load_data. repeat case_match; try done. apply load_loop_filepath.
Qed.


(** X17. Nothing is lost between sessions: when the main block ends,
    by the choice 5 or at the end of the input, after the menu was
    entered, a store constructed again for the same user from the disk
    it leaves holds exactly the records the session ended with; and
    the files of other users are as they were. *)
Theorem main_leaves_ledger_on_disk (disk0 : gmap string file)
    (stdin0 : list string) (e : ending) (w' : world) :
  main int strptime today disk0 stdin0 = (e, Some w') →
  e = Exit ∨ e = EndOfInput →
  ∃ username : string,
    filepath (app w') = username +:+ ".json" ∧
    init username (disk w') = (app w', Return tt) ∧
    ∀ path, path ≠ username +:+ ".json" → disk w' !! path = disk0 !! path.
Proof.
  unfold main. intros Hmain He.
  destruct (get_username disk0 stdin0) as [username rest|]; [|done].
  exists username.
  destruct (init username disk0) as [self r] eqn:Hinit.
  assert (filepath self = username +:+ ".json") as Hpath.
  { unfold init in Hinit.
    pose proof (load_data_filepath (MyCash.mk (username +:+ ".json") []) disk0)
      as Hsame.
    by rewrite Hinit in Hsame. }
  destruct r as [[]| |]; [|by destruct He; simplify_eq..].
  pose proof (run_other_paths (World self disk0 rest 0)) as Hframe.
  destruct (run_steps (World self disk0 rest 0))
    as (e' & w1 & Hrun & _ & Hsteps & _).
  rewrite Hrun in Hmain, Hframe. injection Hmain as <- <-. simpl in *.
  apply (menu_steps_invariant
           (λ s d, filepath s = username +:+ ".json" ∧
                   init username d = (s, Return tt)) _ _ _ _) in Hsteps.
  - destruct Hsteps as [Hpath' Hinit']. split; [done|]. split; [done|].
    intros path Hne. apply Hframe. by rewrite Hpath.
  - intros s d s1 d1 Hstep [Hs Hd].
    apply menu_step_cases in Hstep as [[-> ->]|(rs & -> & -> & _)]; [done|].
    split; [done|]. by apply init_saved.
  - done.
Qed.


End session.

(** ** The properties above on sample input *)

Lemma record_of_item_raises_witness :
  Record.of_kwargs (JObj [("date", JStr "2024-05-02")]) = Raise TypeError ∧
  ¬ entry_shaped JNull.
Proof.
  split.
  - done.
  - by apply (record_of_item_raises JNull).
Defined.

Lemma get_username_returns_witness :
  get_username {["ann.json" := Json (JArr [])]} ["bob"; "2"; "ann"; "5"]
    = Got "ann" ["5"].
Proof.
  apply get_username_returns. exists [("bob", "2")]. split.
  - apply Forall_singleton. by split.
  - left. by split.
Defined.

Lemma run_raises_no_index_error_witness :
  run sample_int sample_strptime sample_today
    (World Sample.ledger ∅ ["3"; "7"; "3"; "-1"; "5"; "1"] 0)
    = (Exit, World Sample.ledger ∅ ["1"] 0) ∧
  run_loop sample_int sample_strptime sample_today 9
    (World Sample.ledger ∅ ["3"; "7"; "3"; "-1"; "5"; "1"] 0)
    = (Exit, World Sample.ledger ∅ ["1"] 0).
Proof.
  assert (run sample_int sample_strptime sample_today
            (World Sample.ledger ∅ ["3"; "7"; "3"; "-1"; "5"; "1"] 0)
          = (Exit, World Sample.ledger ∅ ["1"] 0)) as Hrun by reflexivity.
  split; [exact Hrun|].
  destruct (run_raises_no_index_error sample_int sample_strptime sample_today
              _ _ _ Hrun) as (_ & _ & Hfuel & _).
  apply Hfuel. simpl. lia.
Defined.

Lemma run_keeps_tidy_witness :
  tidy (records Sample.ledger) ∧
  tidy (records (app (run sample_int sample_strptime sample_today
                        (World Sample.ledger ∅
                           ["2"; "2"; "10"; "Tea"; "3"; "0"; "1"; ""; "0"; ""; "5"]
                           0)).2)).
Proof.
  assert (tidy (records Sample.ledger)) as Htidy.
  { unfold tidy. apply (bool_decide_unpack _). by vm_compute. }
  split; [done|].
  by apply (run_keeps_tidy sample_int sample_strptime sample_today
              (World Sample.ledger ∅ _ 0)).
Defined.

Lemma run_writes_own_file_witness :
  disk (run sample_int sample_strptime sample_today
          (World Sample.ledger {["ann.json" := Unparsable]}
             ["2"; "2"; "10"; "Tea"; "5"] 0)).2 !! "ann.json"
  = Some Unparsable.
Proof.
  destruct (run_writes_own_file sample_int sample_strptime sample_today
              (World Sample.ledger {["ann.json" := Unparsable]}
                 ["2"; "2"; "10"; "Tea"; "5"] 0)) as [Hother _].
  by rewrite (Hother "ann.json").
Defined.

Lemma main_leaves_ledger_on_disk_witness :
  ∃ (w' : world) (username : string),
    main sample_int sample_strptime sample_today ∅
      ["ann"; "1"; "2"; "1"; "30000"; "Salary"; "5"] = (Exit, Some w') ∧
    records (app w') = [Record.new "2024-05-04" Income 30000 "Salary"] ∧
    init username (disk w') = (app w', Return tt).
Proof.
  eexists.
  assert (∀ w', main sample_int sample_strptime sample_today ∅
                  ["ann"; "1"; "2"; "1"; "30000"; "Salary"; "5"] = (Exit, Some w') →
                ∃ username, init username (disk w') = (app w', Return tt))
    as Hsession.
  { intros w' Hmain.
    destruct (main_leaves_ledger_on_disk sample_int sample_strptime sample_today
                ∅ _ Exit w' Hmain) as (username & _ & Hinit & _); [by left|].
    by exists username. }
  destruct (Hsession _ eq_refl) as [username Hinit].
  exists username. split; [reflexivity|]. split; [reflexivity|]. exact Hinit.
Defined.

